(** * CodeBuddy: a shallow embedding of [codebuddy.py]

    The pipeline of [codebuddy.py] (dependency mapper, static analyser, test
    runner, fix planner, bug fixer) is embedded agent by agent.  Python
    strings are sequences of code points, the file system is a finite map
    from paths to file texts, Python dictionaries (insertion ordered) are
    association lists, and a raised exception is the [None] of an option or
    the [Raised] of an outcome. *)

From Stdlib Require Import NArith ZArith Lia List Permutation Sorted.
From stdpp Require Import base option list gmap strings.

Open Scope list_scope.
Set Warnings "-register-all".

(** ** Python strings *)

(** A Python [str] is a sequence of Unicode code points. *)
Abbreviation str := (list N).

(** [py "..."] is the Python literal with the same ASCII characters. *)
Definition py (s : string) : str :=
  List.map Ascii.N_of_ascii (String.list_ascii_of_string s).

(** [s.startswith(p)]. *)
Fixpoint starts_with (p s : str) : bool :=
  match p, s with
  | [], _ => true
  | _ :: _, [] => false
  | a :: p', b :: s' => (a =? b)%N && starts_with p' s'
  end.

(** [p in s]: the substring test. *)
Fixpoint contains (p s : str) : bool :=
  match s with
  | [] => starts_with p []
  | _ :: s' => starts_with p s || contains p s'
  end.

(** The number of positions of [s] at which [p] occurs. *)
Fixpoint occurrences (p s : str) : nat :=
  match s with
  | [] => 0
  | _ :: s' => (if starts_with p s then 1 else 0) + occurrences p s'
  end.

(** [s.replace(old, new)] scans [s] from the left: where [old] occurs it
    emits [new] and jumps over the occurrence, elsewhere it copies one
    character.  [skip] counts the characters of the occurrence that are
    still to be jumped over. *)
Fixpoint replace_from (old new : str) (skip : nat) (s : str) : str :=
  match s with
  | [] => []
  | c :: rest =>
      match skip with
      | S k => replace_from old new k rest
      | O =>
          if starts_with old s
          then new ++ replace_from old new (length old - 1) rest
          else c :: replace_from old new 0 rest
      end
  end.

(** With an empty [old], Python inserts [new] before every character and at
    the end. *)
Definition str_replace (old new s : str) : str :=
  match old with
  | [] => new ++ flat_map (fun c => c :: new) s
  | _ :: _ => replace_from old new 0 s
  end.

(** [s.split(sep)] for a one-character separator. *)
Fixpoint split_on (sep : N) (s : str) : list str :=
  match s with
  | [] => [[]]
  | c :: rest =>
      if (c =? sep)%N then [] :: split_on sep rest
      else match split_on sep rest with
           | [] => [[c]]
           | w :: ws => (c :: w) :: ws
           end
  end.

Definition str_eqb (a b : str) : bool := bool_decide (a = b).

(** Python truthiness of a string. *)
Definition truthy (s : str) : bool :=
  match s with [] => false | _ :: _ => true end.

(** The tokens of the detector and of the fixer. *)
Definition EVAL : str := Eval cbv in py "eval(".
Definition LITERAL_EVAL : str := Eval cbv in py "ast.literal_eval(".
Definition NEWLINE : N := 10%N.
Definition DOT : N := 46%N.

(** The substitution of the [fix_eval] action:
    [txt.replace("eval(", "ast.literal_eval(")]. *)
Definition fix_eval_text (txt : str) : str :=
  str_replace EVAL LITERAL_EVAL txt.

(** ** The file system and the exceptions of file access *)

(** The files under the repository root: path to text.  Reading with
    [Path.read_text] raises for a path that holds no readable text. *)
Abbreviation FS := (gmap (list N) (list N)).

(** A computation reads and writes the file system and either returns a
    value or raises ([None]); the writes made before a raise stay. *)
Definition M (A : Type) : Type := FS -> option A * FS.

#[export] Instance M_ret : MRet M := fun A (a : A) fs => (Some a, fs).

#[export] Instance M_bind : MBind M := fun A B (k : A -> M B) (m : M A) fs =>
  match m fs with
  | (Some a, fs') => k a fs'
  | (None, fs') => (None, fs')
  end.

(** [try: body except: handler]. *)
Definition try_except {A : Type} (body handler : M A) : M A := fun fs =>
  match body fs with
  | (Some a, fs') => (Some a, fs')
  | (None, fs') => handler fs'
  end.

(** Raise when an external call gave no value. *)
Definition or_raise {A : Type} (o : option A) : M A := fun fs => (o, fs).

Definition read_file (path : str) : M str := fun fs => (fs !! path, fs).

(** [write_file] where the operating system lets the write through; the
    write it may refuse is [write_file_checked]. *)
Definition write_file (path content : str) : M unit := fun fs =>
  (Some tt, <[path := content]> fs).

(** ** Python dictionaries: insertion ordered *)

(** [d[k] = v]: an existing key keeps its place, a new key goes last. *)
Fixpoint dict_set {V : Type} (k : str) (v : V) (d : list (str * V))
  : list (str * V) :=
  match d with
  | [] => [(k, v)]
  | (k', v') :: d' =>
      if str_eqb k' k then (k', v) :: d' else (k', v') :: dict_set k v d'
  end.

Fixpoint dict_get {V : Type} (k : str) (d : list (str * V)) : option V :=
  match d with
  | [] => None
  | (k', v') :: d' => if str_eqb k' k then Some v' else dict_get k d'
  end.

Definition dict_keys {V : Type} (d : list (str * V)) : list str :=
  List.map fst d.

(** ** Syntax trees *)

(** The position attributes of a node: [lineno], [col_offset],
    [end_lineno], [end_col_offset]. *)
Record position := Position {
  lineno : nat;
  col_offset : nat;
  end_lineno : nat;
  end_col_offset : nat
}.

(** The node classes of the [ast] module that matter here: the two import
    statements, the function definition [def] and the function definition
    [async def], which is a class of its own and no subclass of
    [FunctionDef]; every other class (among them [Lambda]) is [Other]. *)
Inductive node_kind :=
| Import (names : list str)
| ImportFrom (module : option str)
| FunctionDef (name : str) (pos : position)
| AsyncFunctionDef (name : str) (pos : position)
| Other.

(** A node with its child nodes in the order of [ast.iter_child_nodes]. *)
Inductive ast := Node (kind : node_kind) (children : list ast).

Definition kind_of (n : ast) : node_kind :=
  match n with Node k _ => k end.

Definition children_of (n : ast) : list ast :=
  match n with Node _ cs => cs end.

Fixpoint size (t : ast) : nat :=
  match t with
  | Node _ cs =>
      S ((fix sizes (l : list ast) : nat :=
            match l with
            | [] => 0
            | c :: l' => size c + sizes l'
            end) cs)
  end.

Definition forest_size (l : list ast) : nat := list_sum (List.map size l).

(** The loop of [ast.walk]: a queue, [popleft], [extend] with the children
    of the node taken, [yield] it.  Each turn takes one node, so [fuel]
    bounds the number of turns. *)
Fixpoint walk_queue (fuel : nat) (todo : list ast) : list ast :=
  match fuel with
  | O => []
  | S fuel' =>
      match todo with
      | [] => []
      | node :: rest => node :: walk_queue fuel' (rest ++ children_of node)
      end
  end.

(** [ast.walk(tree)]: the queue starts with the tree alone, and the tree has
    [size tree] nodes to take. *)
Definition walk (tree : ast) : list ast := walk_queue (size tree) [tree].

(** The depth-first listing of a tree, a node before its children and the
    children from left to right. *)
Fixpoint preorder (t : ast) : list ast :=
  match t with
  | Node k cs =>
      Node k cs ::
      (fix go (l : list ast) : list ast :=
         match l with
         | [] => []
         | c :: l' => preorder c ++ go l'
         end) cs
  end.

(** The listing of a forest level by level: the trees of [level] from left
    to right, then their children level by level.  Each level that is not
    empty takes nodes off the forest, so [fuel] bounds the levels. *)
Fixpoint level_order (fuel : nat) (level : list ast) : list ast :=
  match fuel with
  | O => []
  | S fuel' =>
      match level with
      | [] => []
      | _ :: _ =>
          level ++ level_order fuel' (flat_map children_of level)
      end
  end.

(** ** Sorting module names *)

(** The order of Python strings: code point by code point. *)
Fixpoint str_ltb (a b : str) : bool :=
  match a, b with
  | [], [] => false
  | [], _ :: _ => true
  | _ :: _, [] => false
  | x :: a', y :: b' => (x <? y)%N || ((x =? y)%N && str_ltb a' b')
  end.

Fixpoint insert_sorted (x : str) (l : list str) : list str :=
  match l with
  | [] => [x]
  | y :: l' =>
      if str_eqb x y then l
      else if str_ltb x y then x :: l
      else y :: insert_sorted x l'
  end.

(** [sorted(set(l))]: each name once, in increasing order. *)
Definition sorted_set (l : list str) : list str :=
  fold_right insert_sorted [] l.

(** [name.split(".")[0]]. *)
Definition top_level (name : str) : str := hd [] (split_on DOT name).

(** ** Records of the pipeline *)

(** An entry of a file's issue list: [{"type": ..., "msg": ...}]. *)
Record issue := Issue { type : str; msg : str }.

(** An entry of the plan: [{"file": ..., "action": ...}]; [None] is
    Python's [None]. *)
Record plan_item := PlanItem { file : option str; action : str }.

(** An entry of the change list: [{"file": ..., "update": ...}]. *)
Record change := Change { changed_file : str; update : str }.

(** The two shapes of a test result:
    [{"success", "stdout", "stderr"}] and [{"success", "errors"}]. *)
Inductive test_result :=
| RunnerResult (success : bool) (stdout stderr : str)
| CompileResult (success : bool) (errors : list (str * str)).

(** [tests["success"]]. *)
Definition success_of (r : test_result) : bool :=
  match r with
  | RunnerResult b _ _ => b
  | CompileResult b _ => b
  end.

(** What [subprocess.run] does: it returns the completed process, or it
    raises ([TimeoutExpired], [OSError], ...) with a message. *)
Inductive process_outcome :=
| Completed (returncode : Z) (out err : str)
| Raised (message : str).

Definition SECURITY : str := Eval cbv in py "security".
Definition COMPLEXITY : str := Eval cbv in py "complexity".
Definition FIX_EVAL : str := Eval cbv in py "fix_eval".
Definition REFACTOR_NOTE : str := Eval cbv in py "refactor_note".
Definition INVESTIGATE : str := Eval cbv in py "investigate_test_failure".

Definition issue_eqb (a b : issue) : bool :=
  str_eqb (type a) (type b) && str_eqb (msg a) (msg b).

(** The number of entries of an issue list equal to [x]. *)
Definition count_issue (x : issue) (l : list issue) : nat :=
  length (List.filter (issue_eqb x) l).

Definition has_type (t : str) (i : issue) : bool := str_eqb (type i) t.

Definition security_issue : issue :=
  Issue SECURITY (py "Unsafe eval() found").

(** [f"Function '{name}' is too long"]. *)
Definition too_long_msg (name : str) : str :=
  py "Function '" ++ name ++ py "' is too long".

Definition complexity_issue (name : str) : issue :=
  Issue COMPLEXITY (too_long_msg name).

(** The line limit of the complexity check. *)
Definition MAX_LINES : nat := 120.

(** ** The agents *)

Section Agents.

(** The calls into Python's library and into the operating system. *)

(** [ast.parse(text)]; [None] when it raises. *)
Variable parse : str -> option ast.

(** [ast.get_source_segment(text, node)] from the position of the node;
    [None] is Python's [None]. *)
Variable get_source_segment : str -> position -> option str.

(** [subprocess.run(cmd, cwd=cwd, shell=True, capture_output=True,
    text=True, timeout=timeout)]. *)
Variable subprocess_run : str -> str -> nat -> process_outcome.

(** [Path(repo_path, "tests").exists()]. *)
Variable tests_dir_exists : str -> bool.

(** [list_source_files(repo_path)]: the [.py] files under the root. *)
Variable list_source_files : str -> list str.

(** [compile(text, filename, "exec")]: the message of the exception it
    raises, if it raises. *)
Variable compile_error : str -> str -> option str.

(** The message of the exception [read_file(path)] raises. *)
Variable read_error : str -> str.

(** [run_cmd]: any exception of the call becomes [(1, "", str(e))]. *)
Definition run_cmd (cmd cwd : str) (timeout : nat) : Z * str * str :=
  match subprocess_run cmd cwd timeout with
  | Completed returncode out err => (returncode, out, err)
  | Raised e => (1%Z, [], e)
  end.

(** *** DependencyMapperAgent *)

(** The loop over [ast.walk(tree)] that collects the imported names. *)
Fixpoint collect_imports (nodes : list ast) (imports : list str)
  : list str :=
  match nodes with
  | [] => imports
  | node :: rest =>
      match kind_of node with
      | Import names =>
          collect_imports rest (imports ++ List.map top_level names)
      | ImportFrom (Some m) =>
          if truthy m then collect_imports rest (imports ++ [top_level m])
          else collect_imports rest imports
      | _ => collect_imports rest imports
      end
  end.

(** The [try] block for one file. *)
Definition file_dependencies (f : str) : M (list str) :=
  text ← read_file f;
  tree ← or_raise (parse text);
  mret (sorted_set (collect_imports (walk tree) [])).

(** The entry of one file: the sorted names, and nothing for a file that
    cannot be read or parsed. *)
Definition dependencies_of (fs : FS) (f : str) : list str :=
  match fs !! f with
  | Some text =>
      match parse text with
      | Some tree => sorted_set (collect_imports (walk tree) [])
      | None => []
      end
  | None => []
  end.

Fixpoint dependency_loop (files : list str) (deps : list (str * list str))
  : M (list (str * list str)) :=
  match files with
  | [] => mret deps
  | f :: rest =>
      entry ← try_except (file_dependencies f) (mret []);
      dependency_loop rest (dict_set f entry deps)
  end.

Definition DependencyMapperAgent_run (files : list str)
  : M (list (str * list str)) :=
  dependency_loop files [].

(** *** StaticAnalyzerAgent *)

(** [len(src.split("\n"))] for the source segment of a node. *)
Definition segment_lines (text : str) (pos : position) : nat :=
  length (split_on NEWLINE (default [] (get_source_segment text pos))).

(** The loop over [ast.walk(tree)] of the complexity check. *)
Fixpoint complexity_loop (text : str) (nodes : list ast)
  (file_issues : list issue) : list issue :=
  match nodes with
  | [] => file_issues
  | node :: rest =>
      match kind_of node with
      | FunctionDef name pos =>
          if MAX_LINES <? segment_lines text pos
          then complexity_loop text rest
                 (file_issues ++ [complexity_issue name])
          else complexity_loop text rest file_issues
      | _ => complexity_loop text rest file_issues
      end
  end.

(** A function definition whose source segment has more than
    [MAX_LINES] lines. *)
Definition long_function (text : str) (node : ast) : bool :=
  match kind_of node with
  | FunctionDef _ pos => MAX_LINES <? segment_lines text pos
  | _ => false
  end.

(** The issue the complexity check has for one node. *)
Definition function_issue (text : str) (node : ast) : list issue :=
  match kind_of node with
  | FunctionDef name pos =>
      if MAX_LINES <? segment_lines text pos
      then [complexity_issue name] else []
  | _ => []
  end.

(** The body of the loop for one file, after the file is read. *)
Definition analyze_text (text : str) : list issue :=
  let file_issues :=
    if contains EVAL text then [security_issue] else [] in
  match parse text with
  | Some tree => complexity_loop text (walk tree) file_issues
  | None => file_issues
  end.

Fixpoint static_loop (files : list str) (issues : list (str * list issue))
  : M (list (str * list issue)) :=
  match files with
  | [] => mret issues
  | f :: rest =>
      text ← read_file f;
      static_loop rest (dict_set f (analyze_text text) issues)
  end.

Definition StaticAnalyzerAgent_run (files : list str)
  : M (list (str * list issue)) :=
  static_loop files [].

(** *** TestRunnerAgent *)

(** [compile(read_file(f), f, "exec")] under [try]: the entry appended to
    [errors] when reading or compiling raises. *)
Definition compile_check (f : str) : M (option (str * str)) := fun fs =>
  match fs !! f with
  | None => (Some (Some (f, read_error f)), fs)
  | Some text =>
      match compile_error text f with
      | Some e => (Some (Some (f, e)), fs)
      | None => (Some None, fs)
      end
  end.

Fixpoint compile_loop (files : list str) (errors : list (str * str))
  : M (list (str * str)) :=
  match files with
  | [] => mret errors
  | f :: rest =>
      r ← compile_check f;
      compile_loop rest (errors ++ from_option (fun e => [e]) [] r)
  end.

Definition TestRunnerAgent_run (repo_path : str) : M test_result :=
  if tests_dir_exists repo_path then
    let '(code, out, err) := run_cmd (py "pytest -q") repo_path 30 in
    mret (RunnerResult (code =? 0)%Z out err)
  else
    errors ← compile_loop (list_source_files repo_path) [];
    mret (CompileResult (Nat.eqb (length errors) 0) errors).

(** *** FixPlannerAgent *)

Fixpoint plan_file (f : str) (iss : list issue) (plan : list plan_item)
  : list plan_item :=
  match iss with
  | [] => plan
  | i :: rest =>
      if str_eqb (type i) SECURITY
      then plan_file f rest (plan ++ [PlanItem (Some f) FIX_EVAL])
      else if str_eqb (type i) COMPLEXITY
      then plan_file f rest (plan ++ [PlanItem (Some f) REFACTOR_NOTE])
      else plan_file f rest plan
  end.

Fixpoint plan_loop (issues : list (str * list issue))
  (plan : list plan_item) : list plan_item :=
  match issues with
  | [] => plan
  | (f, iss) :: rest => plan_loop rest (plan_file f iss plan)
  end.

Definition FixPlannerAgent_run (issues : list (str * list issue))
  (tests : test_result) : list plan_item :=
  let plan := plan_loop issues [] in
  if negb (success_of tests)
  then plan ++ [PlanItem None INVESTIGATE]
  else plan.

(** *** BugFixerAgent *)

Definition REFACTOR_COMMENT : str :=
  NEWLINE :: py "# TODO: Refactor long function." ++ [NEWLINE].

(** [f and ...] holds when [f] is neither [None] nor the empty string. *)
Fixpoint fixer_loop (plan : list plan_item) (changes : list change)
  : M (list change) :=
  match plan with
  | [] => mret changes
  | item :: rest =>
      match file item with
      | Some f =>
          if truthy f && str_eqb (action item) FIX_EVAL then
            txt ← read_file f;
            _ ← write_file f (fix_eval_text txt);
            fixer_loop rest (changes ++ [Change f (py "eval() replaced")])
          else if truthy f && str_eqb (action item) REFACTOR_NOTE then
            txt ← read_file f;
            _ ← write_file f (txt ++ REFACTOR_COMMENT);
            fixer_loop rest
              (changes ++ [Change f (py "refactor note added")])
          else fixer_loop rest changes
      | None => fixer_loop rest changes
      end
  end.

Definition BugFixerAgent_run (repo_path : str) (plan : list plan_item)
  : M (list change) :=
  fixer_loop plan [].

End Agents.

(** ** Long function definitions, in the words of the specification *)

(** The lines a text spans: one more than it has line feeds. *)
Definition lines_spanned (src : str) : nat :=
  S (length (List.filter (fun c => (c =? NEWLINE)%N) src)).

(** A function definition, written with [def] or with [async def]. *)
Definition is_function_definition (node : ast) : bool :=
  match kind_of node with
  | FunctionDef _ _ | AsyncFunctionDef _ _ => true
  | _ => false
  end.

(** A definition written with [def] whose source, from the line of its
    [def] to its last line, spans more than 120 lines. *)
Definition long_def (get_source_segment : str -> position -> option str)
    (text : str) (node : ast) : bool :=
  match kind_of node with
  | FunctionDef _ pos =>
      120 <? lines_spanned (default [] (get_source_segment text pos))
  | _ => false
  end.

(** Such a definition of the function [name]. *)
Definition long_def_named
    (get_source_segment : str -> position -> option str)
    (text name : str) (node : ast) : bool :=
  match kind_of node with
  | FunctionDef name' pos =>
      str_eqb name' name
      && (120 <? lines_spanned (default [] (get_source_segment text pos)))
  | _ => false
  end.

(** ** A sample repository *)

Module Demo.

(** [text.splitlines(keepends=True)] for a text whose line ends are all
    ["\n"]. *)
Fixpoint splitlines (s : str) : list str :=
  match s with
  | [] => []
  | c :: rest =>
      if (c =? NEWLINE)%N then [c] :: splitlines rest
      else match splitlines rest with
           | [] => [[c]]
           | l :: ls => (c :: l) :: ls
           end
  end.

(** [ast.get_source_segment] on ASCII text, where the byte offsets of the
    columns are character offsets, for a position inside the text. *)
Definition get_source_segment (text : str) (pos : position) : option str :=
  let lines := splitlines text in
  let first_line := lineno pos - 1 in
  let last_line := end_lineno pos - 1 in
  if Nat.eqb first_line last_line then
    option_map
      (fun l => List.skipn (col_offset pos)
                  (List.firstn (end_col_offset pos) l))
      (List.nth_error lines first_line)
  else
    match List.nth_error lines first_line,
          List.nth_error lines last_line with
    | Some l1, Some l2 =>
        Some (List.skipn (col_offset pos) l1
              ++ List.concat
                   (List.firstn (last_line - S first_line)
                      (List.skipn (S first_line) lines))
              ++ List.firstn (end_col_offset pos) l2)
    | _, _ => None
    end.

Definition line (s : string) : str := py s ++ [NEWLINE].

(** A module of three long functions: [outer] (lines 1 to 187) holds
    [inner] (lines 62 to 187) and is followed by [second] (lines 188 to
    309). *)
Definition three_functions : str :=
  line "def outer():"
  ++ List.concat (List.repeat (line "    a = 1") 60)
  ++ line "    def inner():"
  ++ List.concat (List.repeat (line "        b = 2") 125)
  ++ line "def second():"
  ++ List.concat (List.repeat (line "    c = 3") 121).

(** [Assign(targets=[Name(ctx=Store())], value=Constant())]. *)
Definition assign : ast :=
  Node Other [Node Other [Node Other []]; Node Other []].

(** The empty [arguments] node of a definition without parameters. *)
Definition arguments : ast := Node Other [].

Definition inner_def : ast :=
  Node (FunctionDef (py "inner") (Position 62 4 187 13))
       (arguments :: List.repeat assign 125).

Definition outer_def : ast :=
  Node (FunctionDef (py "outer") (Position 1 0 187 13))
       (arguments :: List.repeat assign 60 ++ [inner_def]).

Definition second_def : ast :=
  Node (FunctionDef (py "second") (Position 188 0 309 9))
       (arguments :: List.repeat assign 121).

(** What [ast.parse] returns for [three_functions]. *)
Definition three_functions_tree : ast :=
  Node Other [outer_def; second_def].

(** [x = eval(y)], one line. *)
Definition one_eval : str := py "x = eval(y)".

(** [Module(body=[Assign(targets=[Name], value=Call(func=Name,
    args=[Name]))])]. *)
Definition one_eval_tree : ast :=
  Node Other
    [Node Other
       [Node Other [Node Other []];
        Node Other [Node Other [Node Other []];
                    Node Other [Node Other []]]]].

(** A text that is no Python module. *)
Definition broken : str := py "def (:".

(** [import os.path], [from a.b import c]. *)
Definition two_imports : str :=
  line "import os.path" ++ line "from a.b import c".

Definition two_imports_tree : ast :=
  Node Other
    [Node (Import [py "os.path"]) [Node Other []];
     Node (ImportFrom (Some (py "a.b"))) [Node Other []]].

(** [ast.parse] on the sample texts; it raises on the others. *)
Definition parse (text : str) : option ast :=
  if str_eqb text three_functions then Some three_functions_tree
  else if str_eqb text one_eval then Some one_eval_tree
  else if str_eqb text two_imports then Some two_imports_tree
  else None.

Definition path_a : str := py "demo_repo/a.py".
Definition path_b : str := py "demo_repo/b.py".
Definition path_c : str := py "demo_repo/c.py".
Definition path_d : str := py "demo_repo/d.py".

Definition files : list str := [path_a; path_b; path_c; path_d].

(** A repository of four files. *)
Definition repo : FS :=
  <[path_a := one_eval]> (<[path_b := broken]>
    (<[path_c := three_functions]> (<[path_d := two_imports]> ∅))).

(** A test run that times out. *)
Definition subprocess_run (cmd cwd : str) (timeout : nat)
  : process_outcome :=
  Raised (py "Command 'pytest -q' timed out after 30 seconds").

Definition tests_dir_exists (repo_path : str) : bool :=
  str_eqb repo_path (py "demo_repo").

Definition list_source_files (repo_path : str) : list str := files.

Definition compile_error (text filename : str) : option str :=
  match parse text with
  | Some _ => None
  | None => Some (py "invalid syntax")
  end.

Definition read_error (path : str) : str := py "No such file or directory".

End Demo.

(** ** The rest of the pipeline *)

Definition GIT : str := Eval cbv in py ".git".
Definition PY_EXT : str := Eval cbv in py ".py".
Definition README : str := Eval cbv in py "README_CODEBUDDY.md".
Definition REPORT : str := Eval cbv in py "CODEBUDDY_REPORT.json".

(** [sep.join(parts)]. *)
Fixpoint join (sep : str) (parts : list str) : str :=
  match parts with
  | [] => []
  | p :: rest =>
      match rest with
      | [] => p
      | _ :: _ => p ++ sep ++ join sep rest
      end
  end.

(** The names one node adds to [imports] in the mapper's loop. *)
Definition node_imports (node : ast) : list str :=
  match kind_of node with
  | Import names => List.map top_level names
  | ImportFrom (Some m) => if truthy m then [top_level m] else []
  | _ => []
  end.

(** What the fixer does to the text of a file for one action. *)
Definition apply_action (a txt : str) : str :=
  if str_eqb a FIX_EVAL then fix_eval_text txt
  else if str_eqb a REFACTOR_NOTE then txt ++ REFACTOR_COMMENT
  else txt.

(** The items of a plan the fixer acts on: a path that is neither [None]
    nor empty, and one of the two actions on files. *)
Definition acts_on (item : plan_item) : bool :=
  match file item with
  | Some f =>
      truthy f
      && (str_eqb (action item) FIX_EVAL
          || str_eqb (action item) REFACTOR_NOTE)
  | None => false
  end.

(** The change record of an item the fixer acts on. *)
Definition change_of (item : plan_item) : change :=
  Change (default [] (file item))
    (if str_eqb (action item) FIX_EVAL then py "eval() replaced"
     else py "refactor note added").

(** The action the planner has for an issue of the analyser. *)
Definition action_for (i : issue) : str :=
  if str_eqb (type i) SECURITY then FIX_EVAL else REFACTOR_NOTE.

(** The text of a file once the actions for its issues are applied in
    turn. *)
Definition remediate (iss : list issue) (txt : str) : str :=
  fold_left (fun t i => apply_action (action_for i) t) iss txt.

(** The dictionary the reporter serialises. *)
Record report := Report {
  report_plan : list plan_item;
  report_changes : list change;
  tests_before : test_result;
  tests_after : test_result
}.

(** The dictionary [Orchestrator.run] returns. *)
Record run_result := RunResult {
  run_files : list str;
  run_deps : list (str * list str);
  run_issues : list (str * list issue);
  run_plan : list plan_item;
  run_changes : list change;
  run_tests_after : test_result;
  run_report : str
}.

Section Pipeline.

(** The calls into Python's library and into the operating system. *)

Variable parse : str -> option ast.
Variable get_source_segment : str -> position -> option str.

(** [subprocess.run(cmd, cwd=cwd, ...)] with the files at hand: what the
    call does, and the files as the process leaves them (a test process
    reads the source files and may write files of its own). *)
Variable subprocess_run : FS -> str -> str -> nat -> process_outcome * FS.

(** [Path(repo_path, "tests").exists()] with the files at hand. *)
Variable tests_dir_exists : FS -> str -> bool.

Variable compile_error : str -> str -> option str.
Variable read_error : str -> str.

(** Whether the operating system lets [Path(path).write_text] through: the
    directory of the path exists and the path may be written. *)
Variable can_write : str -> bool.

(** [Path(repo_path).rglob("*")] on the files at hand: [str(f)] for each
    entry [f], in the order of the enumeration. *)
Variable rglob : FS -> str -> list str.

(** [Path(path).suffix]. *)
Variable suffix : str -> str.

(** [Path(repo_path, name)]. *)
Variable path_join : str -> str -> str.

(** [json.dumps(report, indent=2)]. *)
Variable json_dumps : report -> str.

(** The filter of [list_source_files]:
    [f.suffix in exts and ".git" not in str(f)]. *)
Definition is_source_file (exts : list str) (f : str) : bool :=
  existsb (str_eqb (suffix f)) exts && negb (contains GIT f).

(** [list_source_files(repo_path, exts)] on the files [fs]. *)
Definition source_files (fs : FS) (repo_path : str) (exts : list str)
  : list str :=
  List.filter (is_source_file exts) (rglob fs repo_path).

(** [list_source_files(repo_path)] with the default [exts=(".py",)]. *)
Definition list_source_files (repo_path : str) : M (list str) := fun fs =>
  (Some (source_files fs repo_path [PY_EXT]), fs).

Definition RepoReaderAgent_run (repo_path : str) : M (list str) :=
  list_source_files repo_path.

(** [write_file] with the refusals of the operating system: it raises, and
    writes nothing, where the system does not let the write through. *)
Definition write_file_checked (path content : str) : M unit := fun fs =>
  if can_write path then write_file path content fs else (None, fs).

(** The loop of [BugFixerAgent.run] with these writes. *)
Fixpoint fixer_loop_checked (plan : list plan_item) (changes : list change)
  : M (list change) :=
  match plan with
  | [] => mret changes
  | item :: rest =>
      match file item with
      | Some f =>
          if truthy f && str_eqb (action item) FIX_EVAL then
            txt ← read_file f;
            _ ← write_file_checked f (fix_eval_text txt);
            fixer_loop_checked rest
              (changes ++ [Change f (py "eval() replaced")])
          else if truthy f && str_eqb (action item) REFACTOR_NOTE then
            txt ← read_file f;
            _ ← write_file_checked f (txt ++ REFACTOR_COMMENT);
            fixer_loop_checked rest
              (changes ++ [Change f (py "refactor note added")])
          else fixer_loop_checked rest changes
      | None => fixer_loop_checked rest changes
      end
  end.

Definition BugFixerAgent_run_checked (repo_path : str)
    (plan : list plan_item) : M (list change) :=
  fixer_loop_checked plan [].

(** The files as the test runner leaves them: as the test process leaves
    them if it is started, as they were if not. *)
Definition files_after_tests (repo_path : str) (fs : FS) : FS :=
  if tests_dir_exists fs repo_path
  then snd (subprocess_run fs (py "pytest -q") repo_path 30)
  else fs.

(** [TestRunnerAgent.run] in the files at hand: it lists and reads the
    files as they are when it runs, and the test process sees them. *)
Definition run_tests (repo_path : str) : M test_result := fun fs =>
  (fst (TestRunnerAgent_run
          (fun cmd cwd timeout => fst (subprocess_run fs cmd cwd timeout))
          (tests_dir_exists fs)
          (fun r => source_files fs r [PY_EXT]) compile_error read_error
          repo_path fs),
   files_after_tests repo_path fs).

(** The loops [for x in xs: out.append(f"- {x}")]. *)
Fixpoint append_items (xs : list str) (out : list str) : list str :=
  match xs with
  | [] => out
  | x :: rest => append_items rest (out ++ [py "- " ++ x])
  end.

(** The lines of the documentation file. *)
Definition doc_lines (files : list str) (deps : list (str * list str))
  : list str :=
  let out := [py "# Auto-generated Documentation"; []] in
  let out := out ++ [py "## Files"] in
  let out := append_items files out in
  let out := out ++ [NEWLINE :: py "## Dependencies"] in
  let unique := sorted_set (flat_map snd deps) in
  append_items unique out.

Definition DocWriterAgent_run (repo_path : str)
    (deps : list (str * list str)) : M str :=
  files ← list_source_files repo_path;
  _ ← write_file_checked (path_join repo_path README)
        (join [NEWLINE] (doc_lines files deps));
  mret README.

Definition ReporterAgent_run (repo_path : str) (plan : list plan_item)
    (changes : list change) (before_tests after_tests : test_result)
  : M str :=
  _ ← write_file_checked (path_join repo_path REPORT)
        (json_dumps (Report plan changes before_tests after_tests));
  mret REPORT.

(** [Orchestrator.run]. *)
Definition Orchestrator_run (repo_path : str) : M run_result :=
  files ← RepoReaderAgent_run repo_path;
  deps ← DependencyMapperAgent_run parse files;
  issues ← StaticAnalyzerAgent_run parse get_source_segment files;
  before ← run_tests repo_path;
  let plan := FixPlannerAgent_run issues before in
  changes ← BugFixerAgent_run_checked repo_path plan;
  docs ← DocWriterAgent_run repo_path deps;
  after ← run_tests repo_path;
  report ← ReporterAgent_run repo_path plan changes before after;
  mret (RunResult files deps issues plan changes after report).

End Pipeline.

(** ** A sample run *)

Module Sample.

(** The entries under [demo_repo]: the four files of [Demo.repo], a test
    file if there is one, a workflow script under [.github] and the files
    the pipeline and the test process write. *)
Definition github_script : str := py "demo_repo/.github/check.py".
Definition test_file : str := py "demo_repo/tests/test_a.py".
Definition cache_file : str := py "demo_repo/.pytest_cache/README.md".

Definition rglob (fs : FS) (repo_path : str) : list str :=
  Demo.files
  ++ [py "demo_repo/.github"; github_script; py "demo_repo/tests"]
  ++ List.filter (fun p => bool_decide (is_Some (fs !! p)))
       [test_file; cache_file;
        py "demo_repo/README_CODEBUDDY.md";
        py "demo_repo/CODEBUDDY_REPORT.json"].

(** [Path(path).name]: the last component of the path. *)
Definition name (path : str) : str := List.last (split_on 47%N path) [].

(** The text from the last dot of [s] on, if [s] has a dot. *)
Fixpoint from_last_dot (s : str) : option str :=
  match s with
  | [] => None
  | c :: rest =>
      match from_last_dot rest with
      | Some t => Some t
      | None => if (c =? DOT)%N then Some s else None
      end
  end.

(** [Path(path).suffix] as Python 3.12 has it: the name from its last dot
    on, unless that dot opens or ends the name. *)
Definition suffix (path : str) : str :=
  match name path with
  | [] => []
  | _ :: rest =>
      match from_last_dot rest with
      | Some t => if 1 <? length t then t else []
      | None => []
      end
  end.

Definition path_join (repo_path name : str) : str :=
  repo_path ++ py "/" ++ name.

(** A stand-in for the JSON text: the number of plan entries. *)
Definition json_dumps (r : report) : str :=
  List.repeat 46%N (length (report_plan r)).

(** [demo_repo] with a test file. *)
Definition repo : FS := <[test_file := py "import a"]> Demo.repo.

Definition tests_dir_exists (fs : FS) (repo_path : str) : bool :=
  bool_decide (is_Some (fs !! test_file)).

(** A test process that passes once [a.py] calls [ast.literal_eval], and
    that leaves a cache file. *)
Definition subprocess_run (fs : FS) (cmd cwd : str) (timeout : nat)
  : process_outcome * FS :=
  (match fs !! Demo.path_a with
   | Some text =>
       if contains LITERAL_EVAL text then Completed 0 (py "1 passed") []
       else Completed 1 (py "1 failed") []
   | None => Completed 2 [] (py "no tests ran")
   end,
   <[cache_file := py "# pytest cache directory #"]> fs).

(** Everything may be written but one locked path. *)
Definition can_write (path : str) : bool :=
  negb (str_eqb path (py "demo_repo/locked.py")).

(** A module of one [async def] of 130 lines. *)
Definition async_long : str :=
  Demo.line "async def fetch():"
  ++ List.concat (List.repeat (Demo.line "    await step()") 129).

(** [Expr(value=Await(value=Call(func=Name(ctx=Load()))))]. *)
Definition await_step : ast :=
  Node Other [Node Other [Node Other [Node Other [Node Other []]]]].

Definition async_long_pos : position := Position 1 0 130 16.

Definition async_long_def : ast :=
  Node (AsyncFunctionDef (py "fetch") async_long_pos)
    (Demo.arguments :: List.repeat await_step 129).

Definition async_long_tree : ast := Node Other [async_long_def].

(** The body of [body_120]: 120 lines. *)
Definition body_120_body : str :=
  join [NEWLINE] (List.repeat (py "    x = 1") 120).

(** A module of one [def]: the line of the [def] and a body of 120
    lines. *)
Definition body_120 : str :=
  Demo.line "def f():" ++ body_120_body ++ [NEWLINE].

Definition body_120_pos : position := Position 1 0 121 9.

Definition body_120_def : ast :=
  Node (FunctionDef (py "f") body_120_pos)
    (Demo.arguments :: List.repeat Demo.assign 120).

Definition body_120_tree : ast := Node Other [body_120_def].

(** [ast.parse] on the sample texts. *)
Definition parse (text : str) : option ast :=
  if str_eqb text async_long then Some async_long_tree
  else if str_eqb text body_120 then Some body_120_tree
  else Demo.parse text.

Definition path_async : str := py "demo_repo/fetch.py".
Definition path_body : str := py "demo_repo/f.py".

(** A repository of these two files. *)
Definition long_repo : FS :=
  <[path_async := async_long]> (<[path_body := body_120]> ∅).

End Sample.

(** * Properties *)

(** ** Strings: prefixes, occurrences and replacement *)

Lemma starts_with_app (p r : str) : starts_with p (p ++ r) = true.
Proof.
  induction p as [|a p IH]; simpl; [reflexivity|].
  rewrite N.eqb_refl. exact IH.
Qed.

Lemma starts_with_split (p s : str) :
  starts_with p s = true -> s = p ++ List.skipn (length p) s.
Proof.
  revert s. induction p as [|a p IH]; intros s H; simpl in *.
  - reflexivity.
  - destruct s as [|b s]; [discriminate|].
    apply andb_prop in H as [Hab Hps]. apply N.eqb_eq in Hab. subst b.
    simpl. f_equal. apply IH, Hps.
Qed.

Lemma replace_from_skip (old new : str) (k : nat) (s : str) :
  replace_from old new k s = replace_from old new 0 (List.skipn k s).
Proof.
  revert k. induction s as [|c s IH]; intros k.
  - destruct k; reflexivity.
  - destruct k as [|k]; [reflexivity|]. simpl List.skipn. simpl replace_from at 1.
    apply IH.
Qed.

Lemma contains_occurrences (p s : str) :
  p <> [] -> contains p s = true <-> 0 < occurrences p s.
Proof.
  intros Hp. induction s as [|c s IH]; simpl.
  - destruct p; [congruence|]. simpl. split; [discriminate|lia].
  - destruct (starts_with p (c :: s)); simpl; [split; [lia|reflexivity]|].
    exact IH.
Qed.

Lemma occurrences_app_ge (p a b : str) :
  occurrences p b <= occurrences p (a ++ b).
Proof. induction a as [|c a IH]; simpl; lia. Qed.

Lemma replace_from_cons (old new : str) (c : N) (r : str) :
  replace_from old new 0 (c :: r)
  = if starts_with old (c :: r)
    then new ++ replace_from old new 0 (List.skipn (length old - 1) r)
    else c :: replace_from old new 0 r.
Proof.
  cbn [replace_from]. destruct (starts_with old (c :: r)); [|reflexivity].
  now rewrite replace_from_skip.
Qed.

(** The three equations of the [fix_eval] substitution. *)

Lemma fix_eval_text_nil : fix_eval_text [] = [].
Proof. reflexivity. Qed.

Lemma fix_eval_text_hit (r : str) :
  fix_eval_text (EVAL ++ r) = LITERAL_EVAL ++ fix_eval_text r.
Proof.
  change (fix_eval_text (EVAL ++ r))
    with (replace_from EVAL LITERAL_EVAL 0 (101%N :: List.tl EVAL ++ r)).
  rewrite replace_from_cons.
  change (101%N :: List.tl EVAL ++ r) with (EVAL ++ r).
  rewrite starts_with_app. reflexivity.
Qed.

Lemma fix_eval_text_miss (c : N) (r : str) :
  starts_with EVAL (c :: r) = false ->
  fix_eval_text (c :: r) = c :: fix_eval_text r.
Proof.
  intros H.
  change (fix_eval_text (c :: r))
    with (replace_from EVAL LITERAL_EVAL 0 (c :: r)).
  rewrite replace_from_cons, H. reflexivity.
Qed.

(** Induction along the scan of the substitution. *)
Lemma fix_eval_scan_ind (P : str -> Prop) :
  P [] ->
  (forall r, P r -> P (EVAL ++ r)) ->
  (forall c r, starts_with EVAL (c :: r) = false -> P r -> P (c :: r)) ->
  forall s, P s.
Proof.
  intros Hnil Hhit Hmiss s.
  remember (length s) as n eqn:Hn.
  revert s Hn. induction n as [n IH] using lt_wf_ind. intros s Hn.
  destruct s as [|c r]; [exact Hnil|].
  destruct (starts_with EVAL (c :: r)) eqn:E.
  - apply starts_with_split in E. rewrite E. apply Hhit.
    apply (IH (length (List.skipn (length EVAL) (c :: r)))); [|reflexivity].
    subst n. rewrite List.length_skipn. simpl. lia.
  - apply Hmiss; [exact E|]. apply (IH (length r)); [|reflexivity].
    subst n. simpl. lia.
Qed.

(** A proper tail of ["eval("] that opens the output of the substitution
    opens its input as well: the replacement brings none of them. *)
Lemma fix_eval_text_tail_back (t : str) :
  forall q : str,
    In q [[40%N]; [108%N; 40%N]; [97%N; 108%N; 40%N];
          [118%N; 97%N; 108%N; 40%N]] ->
    starts_with q (fix_eval_text t) = true -> starts_with q t = true.
Proof.
  induction t as [|r IH|c r Hmiss IH] using fix_eval_scan_ind; intros q Hq.
  - rewrite fix_eval_text_nil. auto.
  - rewrite fix_eval_text_hit.
    simpl in Hq. intuition subst; cbn; discriminate.
  - rewrite fix_eval_text_miss by exact Hmiss.
    simpl in Hq.
    destruct Hq as [<-|[<-|[<-|[<-|[]]]]]; cbn [starts_with];
      intros H; apply andb_prop in H as [-> H]; cbn [andb].
    + reflexivity.
    + apply (IH [40%N]); simpl; auto.
    + apply (IH [108%N; 40%N]); simpl; auto.
    + apply (IH [97%N; 108%N; 40%N]); simpl; auto.
Qed.

(** The output of the substitution never opens with ["eval("]. *)
Lemma fix_eval_text_not_eval (t : str) :
  starts_with EVAL (fix_eval_text t) = false.
Proof.
  destruct t as [|c r]; [reflexivity|].
  destruct (starts_with EVAL (c :: r)) eqn:E.
  - apply starts_with_split in E. rewrite E, fix_eval_text_hit. reflexivity.
  - rewrite fix_eval_text_miss by exact E.
    destruct (starts_with EVAL (c :: fix_eval_text r)) eqn:E'; [|reflexivity].
    unfold EVAL in E, E'. cbn [starts_with] in E, E'.
    apply andb_prop in E' as [Hc E']. rewrite Hc in E. cbn [andb] in E.
    apply (fix_eval_text_tail_back r [118%N; 97%N; 108%N; 40%N]) in E';
      [|simpl; auto].
    cbn [starts_with] in E'. congruence.
Qed.

Lemma occurrences_EVAL_hit (r : str) :
  occurrences EVAL (EVAL ++ r) = S (occurrences EVAL r).
Proof. reflexivity. Qed.

Lemma occurrences_EVAL_literal (r : str) :
  occurrences EVAL (LITERAL_EVAL ++ r) = S (occurrences EVAL r).
Proof. reflexivity. Qed.

Lemma occurrences_EVAL_miss (c : N) (r : str) :
  starts_with EVAL (c :: r) = false ->
  occurrences EVAL (c :: r) = occurrences EVAL r.
Proof. intros H. cbn [occurrences]. now rewrite H. Qed.

(** The substitution keeps the number of occurrences of ["eval("]: each one
    is now the end of an ["ast.literal_eval("]. *)
Lemma fix_eval_text_occurrences (t : str) :
  occurrences EVAL (fix_eval_text t) = occurrences EVAL t.
Proof.
  induction t as [|r IH|c r Hmiss IH] using fix_eval_scan_ind.
  - reflexivity.
  - now rewrite fix_eval_text_hit, occurrences_EVAL_literal,
      occurrences_EVAL_hit, IH.
  - rewrite fix_eval_text_miss by exact Hmiss.
    rewrite (occurrences_EVAL_miss c r Hmiss), <- IH.
    apply occurrences_EVAL_miss.
    pose proof (fix_eval_text_not_eval (c :: r)) as H.
    now rewrite fix_eval_text_miss in H by exact Hmiss.
Qed.

Lemma fix_eval_text_length (t : str) :
  length (fix_eval_text t) = length t + 12 * occurrences EVAL t.
Proof.
  induction t as [|r IH|c r Hmiss IH] using fix_eval_scan_ind.
  - reflexivity.
  - rewrite fix_eval_text_hit, occurrences_EVAL_hit, !List.length_app, IH.
    simpl. lia.
  - rewrite fix_eval_text_miss, (occurrences_EVAL_miss c r) by exact Hmiss.
    simpl. rewrite IH. lia.
Qed.

(** The substitution leaves exactly the texts without ["eval("] alone. *)
Lemma fix_eval_text_fixed (t : str) :
  fix_eval_text t = t <-> occurrences EVAL t = 0.
Proof.
  split.
  - intros H. pose proof (fix_eval_text_length t) as L. rewrite H in L. lia.
  - induction t as [|r IH|c r Hmiss IH] using fix_eval_scan_ind.
    + reflexivity.
    + rewrite occurrences_EVAL_hit. discriminate.
    + rewrite (occurrences_EVAL_miss c r Hmiss). intros H.
      rewrite fix_eval_text_miss by exact Hmiss. now rewrite IH.
Qed.

Lemma str_replace_hit (old new r : str) :
  old <> [] -> str_replace old new (old ++ r) = new ++ str_replace old new r.
Proof.
  destruct old as [|a old']; [congruence|]. intros _.
  unfold str_replace. simpl List.app at 1. rewrite replace_from_cons.
  change (a :: old' ++ r) with ((a :: old') ++ r).
  rewrite starts_with_app. do 2 f_equal.
  replace (length (a :: old') - 1) with (length old') by (simpl; lia).
  apply drop_app_length.
Qed.

Lemma str_replace_miss (old new : str) (c : N) (r : str) :
  old <> [] -> starts_with old (c :: r) = false ->
  str_replace old new (c :: r) = c :: str_replace old new r.
Proof.
  destruct old as [|a old']; [congruence|]. intros _ H.
  unfold str_replace. now rewrite replace_from_cons, H.
Qed.

Lemma starts_with_cons_false (a : N) (p : str) (c : N) (x : str) :
  starts_with p x = false -> starts_with (a :: p) (c :: x) = false.
Proof. simpl. intros ->. apply andb_false_r. Qed.

(** No proper tail of ["ast.literal_eval("] that holds ["eval("] opens the
    output of the substitution. *)
Lemma fix_eval_text_no_literal_tail (t : str) :
  forall n, 1 <= n <= 12 ->
    starts_with (List.skipn n LITERAL_EVAL) (fix_eval_text t) = false.
Proof.
  induction t as [|r IH|c r Hmiss IH] using fix_eval_scan_ind; intros n Hn.
  - do 13 (destruct n as [|n]; [try lia; reflexivity|]). lia.
  - rewrite fix_eval_text_hit.
    do 13 (destruct n as [|n]; [try lia; reflexivity|]). lia.
  - destruct (Nat.eq_dec n 12) as [->|Hne].
    { apply fix_eval_text_not_eval. }
    rewrite fix_eval_text_miss by exact Hmiss.
    assert (Hnext : starts_with (List.skipn (S n) LITERAL_EVAL)
                      (fix_eval_text r) = false) by (apply IH; lia).
    do 12 (destruct n as [|n];
           [try lia; exact (starts_with_cons_false _ _ c _ Hnext)|]).
    lia.
Qed.

Lemma occurrences_LITERAL_hit (r : str) :
  occurrences LITERAL_EVAL (LITERAL_EVAL ++ r)
  = S (occurrences LITERAL_EVAL r).
Proof. reflexivity. Qed.

Lemma starts_with_LITERAL_miss (c : N) (r : str) :
  starts_with LITERAL_EVAL (c :: fix_eval_text r) = false.
Proof.
  pose proof (fix_eval_text_no_literal_tail r 1 ltac:(lia)) as H.
  exact (starts_with_cons_false _ _ c _ H).
Qed.

(** Each ["ast.literal_eval("] of the output stands for one ["eval("] of the
    input. *)
Lemma fix_eval_text_literal_occurrences (t : str) :
  occurrences LITERAL_EVAL (fix_eval_text t) = occurrences EVAL t.
Proof.
  induction t as [|r IH|c r Hmiss IH] using fix_eval_scan_ind.
  - reflexivity.
  - now rewrite fix_eval_text_hit, occurrences_LITERAL_hit,
      occurrences_EVAL_hit, IH.
  - rewrite fix_eval_text_miss, (occurrences_EVAL_miss c r) by exact Hmiss.
    cbn [occurrences]. now rewrite starts_with_LITERAL_miss, IH.
Qed.

(** Putting ["eval("] back for every ["ast.literal_eval("] of the output
    gives the input: the substitution changed nothing else. *)
Lemma fix_eval_text_undo (t : str) :
  str_replace LITERAL_EVAL EVAL (fix_eval_text t) = t.
Proof.
  induction t as [|r IH|c r Hmiss IH] using fix_eval_scan_ind.
  - reflexivity.
  - rewrite fix_eval_text_hit, str_replace_hit by discriminate.
    now rewrite IH.
  - rewrite fix_eval_text_miss by exact Hmiss.
    rewrite str_replace_miss;
      [now rewrite IH | discriminate | apply starts_with_LITERAL_miss].
Qed.

(** ** BugFixerAgent: the [fix_eval] action *)

Lemma fixer_loop_fix_eval (f t : str) (rest : list plan_item)
    (changes : list change) (fs : FS) :
  fs !! f = Some t -> truthy f = true ->
  fixer_loop (PlanItem (Some f) FIX_EVAL :: rest) changes fs
  = fixer_loop rest (changes ++ [Change f (py "eval() replaced")])
      (<[f := fix_eval_text t]> fs).
Proof.
  intros Hf Ht. cbn [fixer_loop file action]. rewrite Ht.
  change (str_eqb FIX_EVAL FIX_EVAL) with true. cbn [andb].
  unfold mbind, M_bind, read_file, write_file. now rewrite Hf.
Qed.

(** C1, as the code has it.  The [fix_eval] action on a readable file [f]
    with text [t] returns one change record and overwrites [f] with the
    substituted text.  If [t] has N occurrences of ["eval("], the new text
    has N occurrences of ["ast.literal_eval("], it is [t] again once these
    are turned back, and, as each replacement ends in ["eval("], it still
    has N occurrences of ["eval("]. *)
Theorem fix_eval_replaces_every_occurrence
    (repo_path f t : str) (fs : FS) :
  fs !! f = Some t -> truthy f = true ->
  BugFixerAgent_run repo_path [PlanItem (Some f) FIX_EVAL] fs
  = (Some [Change f (py "eval() replaced")], <[f := fix_eval_text t]> fs)
  /\ occurrences LITERAL_EVAL (fix_eval_text t) = occurrences EVAL t
  /\ str_replace LITERAL_EVAL EVAL (fix_eval_text t) = t
  /\ occurrences EVAL (fix_eval_text t) = occurrences EVAL t.
Proof.
  intros Hf Ht. split; [|split; [|split]].
  - unfold BugFixerAgent_run. now rewrite (fixer_loop_fix_eval f t) by done.
  - apply fix_eval_text_literal_occurrences.
  - apply fix_eval_text_undo.
  - apply fix_eval_text_occurrences.
Qed.

Lemma fix_eval_replaces_every_occurrence_witness :
  BugFixerAgent_run (py "demo_repo")
    [PlanItem (Some Demo.path_a) FIX_EVAL] Demo.repo
  = (Some [Change Demo.path_a (py "eval() replaced")],
     <[Demo.path_a := fix_eval_text Demo.one_eval]> Demo.repo)
  /\ occurrences LITERAL_EVAL (fix_eval_text Demo.one_eval)
     = occurrences EVAL Demo.one_eval
  /\ str_replace LITERAL_EVAL EVAL (fix_eval_text Demo.one_eval)
     = Demo.one_eval
  /\ occurrences EVAL (fix_eval_text Demo.one_eval)
     = occurrences EVAL Demo.one_eval.
Proof.
  apply (fix_eval_replaces_every_occurrence (py "demo_repo") Demo.path_a
           Demo.one_eval Demo.repo); reflexivity.
Defined.

(** C1 as stated fails: after [fix_eval] on the file [x = eval(y)] the text
    is [x = ast.literal_eval(y)], in which ["eval("] occurs once, not zero
    times. *)
Lemma fix_eval_leaves_the_token :
  occurrences EVAL Demo.one_eval = 1
  /\ snd (BugFixerAgent_run (py "demo_repo")
            [PlanItem (Some Demo.path_a) FIX_EVAL] Demo.repo)
       !! Demo.path_a
     = Some (py "x = ast.literal_eval(y)")
  /\ occurrences EVAL (py "x = ast.literal_eval(y)") = 1
  /\ occurrences EVAL (py "x = ast.literal_eval(y)") <> 0.
Proof.
  split; [reflexivity|]. split; [vm_compute; reflexivity|].
  split; [reflexivity|discriminate].
Qed.

(** C2, as the code has it.  A second application of the substitution
    changes nothing exactly when the text has no ["eval("], and then the
    first application changed nothing either. *)
Theorem fix_eval_text_idempotent_iff (t : str) :
  (fix_eval_text (fix_eval_text t) = fix_eval_text t
   <-> occurrences EVAL t = 0)
  /\ (occurrences EVAL t = 0 -> fix_eval_text t = t)
  /\ length (fix_eval_text (fix_eval_text t))
     = length (fix_eval_text t) + 12 * occurrences EVAL t.
Proof.
  split; [|split].
  - rewrite fix_eval_text_fixed. now rewrite fix_eval_text_occurrences.
  - apply fix_eval_text_fixed.
  - now rewrite fix_eval_text_length, fix_eval_text_occurrences.
Qed.

Lemma fix_eval_text_idempotent_iff_witness :
  fix_eval_text (fix_eval_text (py "x = 1")) = fix_eval_text (py "x = 1")
  /\ fix_eval_text (py "x = 1") = py "x = 1".
Proof.
  pose proof (fix_eval_text_idempotent_iff (py "x = 1")) as [H1 [H2 _]].
  split; [apply H1; reflexivity | apply H2; reflexivity].
Defined.

(** C2 as stated fails: on [x = eval(y)] the second application turns
    [ast.literal_eval(] into [ast.literal_ast.literal_eval(]. *)
Lemma fix_eval_text_not_idempotent :
  fix_eval_text (py "x = eval(y)") = py "x = ast.literal_eval(y)"
  /\ fix_eval_text (fix_eval_text (py "x = eval(y)"))
     = py "x = ast.literal_ast.literal_eval(y)"
  /\ fix_eval_text (fix_eval_text (py "x = eval(y)"))
     <> fix_eval_text (py "x = eval(y)").
Proof.
  split; [reflexivity|]. split; [reflexivity|]. vm_compute. discriminate.
Qed.

(** ** Syntax trees: [ast.walk] *)

Lemma size_Node (k : node_kind) (cs : list ast) :
  size (Node k cs) = S (forest_size cs).
Proof.
  unfold forest_size. simpl. f_equal.
  induction cs as [|c cs IH]; simpl; [reflexivity|]. now rewrite IH.
Qed.

Lemma preorder_Node (k : node_kind) (cs : list ast) :
  preorder (Node k cs) = Node k cs :: flat_map preorder cs.
Proof.
  simpl. f_equal.
  all: induction cs as [|c cs IH]; simpl; [reflexivity|now rewrite IH].
Qed.

Lemma size_children (t : ast) : size t = S (forest_size (children_of t)).
Proof. destruct t as [k cs]. apply size_Node. Qed.

Lemma preorder_children (t : ast) :
  preorder t = t :: flat_map preorder (children_of t).
Proof. destruct t as [k cs]. apply preorder_Node. Qed.

Lemma forest_size_app (a b : list ast) :
  forest_size (a ++ b) = forest_size a + forest_size b.
Proof. unfold forest_size. now rewrite List.map_app, list_sum_app. Qed.

Lemma forest_size_cons (t : ast) (l : list ast) :
  forest_size (t :: l) = S (forest_size (children_of t)) + forest_size l.
Proof. unfold forest_size at 1. simpl. now rewrite size_children. Qed.

Lemma forest_size_levels (q : list ast) :
  forest_size q = length q + forest_size (flat_map children_of q).
Proof.
  induction q as [|t q IH]; [reflexivity|].
  rewrite forest_size_cons. simpl flat_map. rewrite forest_size_app. simpl.
  lia.
Qed.

(** With fuel for every node of the queue, the walk yields every node of
    the queue's trees once. *)
Lemma walk_queue_Permutation (fuel : nat) :
  forall todo, forest_size todo <= fuel ->
    Permutation (walk_queue fuel todo) (flat_map preorder todo).
Proof.
  induction fuel as [|fuel IH]; intros todo Hsz.
  - destruct todo as [|t todo]; [constructor|].
    rewrite forest_size_cons in Hsz. lia.
  - destruct todo as [|t todo]; [constructor|].
    rewrite forest_size_cons in Hsz.
    cbn [walk_queue flat_map]. rewrite preorder_children. simpl.
    constructor. rewrite IH by (rewrite forest_size_app; lia).
    rewrite List.flat_map_app. apply Permutation_app_comm.
Qed.

Lemma walk_Permutation (tree : ast) :
  Permutation (walk tree) (preorder tree).
Proof.
  unfold walk.
  rewrite walk_queue_Permutation by (unfold forest_size; simpl; lia).
  simpl. now rewrite List.app_nil_r.
Qed.

(** The walk takes the nodes waiting in the queue in turn and queues their
    children behind whatever waits already. *)
Lemma walk_queue_level (q : list ast) :
  forall fuel waiting, length q <= fuel ->
    walk_queue fuel (q ++ waiting)
    = q ++ walk_queue (fuel - length q)
             (waiting ++ flat_map children_of q).
Proof.
  induction q as [|t q IH]; intros fuel waiting Hlen.
  - simpl. now rewrite Nat.sub_0_r, List.app_nil_r.
  - destruct fuel as [|fuel]; [simpl in Hlen; lia|].
    cbn [walk_queue List.app flat_map length Nat.sub].
    rewrite <- List.app_assoc, IH by (simpl in Hlen; lia).
    now rewrite <- List.app_assoc.
Qed.

(** Hence the walk is the level order, whatever fuel covers the queue. *)
Lemma walk_queue_level_order (m : nat) :
  forall n q, forest_size q <= n -> forest_size q <= m ->
    walk_queue n q = level_order m q.
Proof.
  induction m as [|m IH]; intros n q Hn Hm.
  - destruct q as [|t q]; [now destruct n|].
    rewrite forest_size_cons in Hm. lia.
  - destruct q as [|t q]; [now destruct n|].
    pose proof (forest_size_levels (t :: q)) as Hlv.
    cbn [level_order].
    rewrite <- (List.app_nil_r (t :: q)) at 1.
    rewrite walk_queue_level by lia. cbn [List.app]. do 2 f_equal.
    apply IH; simpl in Hlv |- *; lia.
Qed.

Lemma walk_level_order (tree : ast) :
  walk tree = level_order (size tree) [tree].
Proof.
  apply walk_queue_level_order; unfold forest_size; simpl; lia.
Qed.

(** More fuel than the tree has nodes changes nothing. *)
Lemma walk_fuel (tree : ast) (fuel : nat) :
  size tree <= fuel -> walk_queue fuel [tree] = walk tree.
Proof.
  intros H. rewrite walk_level_order.
  apply walk_queue_level_order; unfold forest_size; simpl; lia.
Qed.

(** ** Dictionaries *)

Lemma str_eqb_true (a b : str) : str_eqb a b = true <-> a = b.
Proof. unfold str_eqb. apply bool_decide_eq_true. Qed.

Lemma str_eqb_false (a b : str) : str_eqb a b = false <-> a <> b.
Proof. unfold str_eqb. apply bool_decide_eq_false. Qed.

Lemma str_eqb_refl (a : str) : str_eqb a a = true.
Proof. now apply str_eqb_true. Qed.

Section Dict.

Context {V : Type}.
Implicit Types (d : list (str * V)) (k : str) (v : V).

Lemma dict_get_set_eq k v d : dict_get k (dict_set k v d) = Some v.
Proof.
  induction d as [|[k' v'] d IH]; simpl.
  - now rewrite str_eqb_refl.
  - destruct (str_eqb k' k) eqn:E; simpl; rewrite E; [reflexivity|exact IH].
Qed.

Lemma dict_get_set_ne k k' v d :
  k <> k' -> dict_get k' (dict_set k v d) = dict_get k' d.
Proof.
  intros Hne. induction d as [|[k0 v0] d IH]; simpl.
  - now rewrite (proj2 (str_eqb_false k k')).
  - destruct (str_eqb k0 k) eqn:E; simpl.
    + apply str_eqb_true in E. subst k0.
      now rewrite (proj2 (str_eqb_false k k')).
    + now rewrite IH.
Qed.

Lemma dict_set_new k v d :
  ~ In k (dict_keys d) -> dict_set k v d = d ++ [(k, v)].
Proof.
  induction d as [|[k' v'] d IH]; simpl; intros Hk; [reflexivity|].
  destruct (str_eqb k' k) eqn:E.
  - apply str_eqb_true in E. tauto.
  - rewrite IH by tauto. reflexivity.
Qed.

(** A loop [for f in files: d[f] = entry(f)]. *)
Lemma dict_loop_get_other (entry : str -> V) (files : list str) :
  forall d f, ~ In f files ->
    dict_get f (fold_left (fun d f => dict_set f (entry f) d) files d)
    = dict_get f d.
Proof.
  induction files as [|g files IH]; intros d f Hf; [reflexivity|].
  simpl in *. rewrite IH by tauto.
  apply dict_get_set_ne. intros ->. tauto.
Qed.

Lemma dict_loop_get (entry : str -> V) (files : list str) :
  forall d f, In f files ->
    dict_get f (fold_left (fun d f => dict_set f (entry f) d) files d)
    = Some (entry f).
Proof.
  induction files as [|g files IH]; intros d f Hf; [destruct Hf|].
  simpl. destruct (in_dec (fun a b : str => decide (a = b)) f files)
    as [Hin|Hnin].
  - now apply IH.
  - destruct Hf as [->|Hf]; [|tauto].
    rewrite dict_loop_get_other by exact Hnin. apply dict_get_set_eq.
Qed.

Lemma dict_loop_keys (entry : str -> V) (files : list str) :
  forall d, List.NoDup (dict_keys d ++ files) ->
    fold_left (fun d f => dict_set f (entry f) d) files d
    = d ++ List.map (fun f => (f, entry f)) files.
Proof.
  induction files as [|g files IH]; intros d Hnd; simpl.
  - now rewrite List.app_nil_r.
  - assert (Hg : ~ In g (dict_keys d)).
    { apply NoDup_remove_2 in Hnd. rewrite in_app_iff in Hnd. tauto. }
    rewrite dict_set_new by exact Hg. rewrite IH.
    + now rewrite <- List.app_assoc.
    + unfold dict_keys in *. rewrite List.map_app. simpl.
      now rewrite <- List.app_assoc.
Qed.

End Dict.

(** ** Substrings *)

Lemma contains_spec (p s : str) :
  contains p s = true <-> exists l r, s = l ++ p ++ r.
Proof.
  split.
  - induction s as [|c s IH]; simpl; intros H.
    + destruct p; [|discriminate]. now exists [], [].
    + apply orb_prop in H as [H|H].
      * apply starts_with_split in H. exists [], (List.skipn (length p) (c :: s)).
        exact H.
      * destruct (IH H) as (l & r & ->). now exists (c :: l), r.
  - intros (l & r & ->). induction l as [|c l IH].
    + simpl. pose proof (starts_with_app p r) as H.
      destruct (p ++ r) eqn:E; simpl; [|now rewrite H].
      now destruct p.
    + simpl. rewrite IH. apply orb_true_r.
Qed.

(** A text that holds ["ast.literal_eval("] holds ["eval("]. *)
Lemma contains_LITERAL_EVAL (text : str) :
  contains LITERAL_EVAL text = true -> contains EVAL text = true.
Proof.
  rewrite !contains_spec. intros (l & r & ->).
  exists (l ++ py "ast.literal_"), r.
  now rewrite <- List.app_assoc.
Qed.

(** A text that held ["eval("] holds it after the substitution. *)
Lemma contains_EVAL_fix_eval_text (text : str) :
  contains EVAL text = true -> contains EVAL (fix_eval_text text) = true.
Proof.
  rewrite !contains_occurrences by discriminate.
  now rewrite fix_eval_text_occurrences.
Qed.

(** ** StaticAnalyzerAgent and DependencyMapperAgent *)

Lemma filter_length_Permutation {A : Type} (f : A -> bool) (l l' : list A) :
  Permutation l l' -> length (List.filter f l) = length (List.filter f l').
Proof.
  induction 1 as [|x l l' _ IH|x y l|l l' l'' _ IH1 _ IH2]; simpl.
  - reflexivity.
  - destruct (f x); simpl; now rewrite IH.
  - destruct (f x), (f y); reflexivity.
  - now rewrite IH1.
Qed.

Lemma too_long_msg_inj (a b : str) : too_long_msg a = too_long_msg b -> a = b.
Proof.
  unfold too_long_msg. intros H.
  apply List.app_inv_head in H. now apply List.app_inv_tail in H.
Qed.

Lemma issue_eqb_complexity (a b : str) :
  issue_eqb (complexity_issue a) (complexity_issue b) = str_eqb b a.
Proof.
  unfold issue_eqb, complexity_issue. cbn [type msg].
  rewrite str_eqb_refl. cbn [andb].
  destruct (str_eqb b a) eqn:E.
  - apply str_eqb_true in E. subst. apply str_eqb_refl.
  - apply str_eqb_false. intros H. apply too_long_msg_inj in H.
    apply str_eqb_false in E. congruence.
Qed.

Section Analysis.

Variable parse : str -> option ast.
Variable get_source_segment : str -> position -> option str.

Lemma complexity_loop_flat_map (text : str) (nodes : list ast) :
  forall file_issues,
    complexity_loop get_source_segment text nodes file_issues
    = file_issues
      ++ flat_map (function_issue get_source_segment text) nodes.
Proof.
  induction nodes as [|node nodes IH]; intros acc;
    cbn [complexity_loop flat_map].
  - now rewrite List.app_nil_r.
  - unfold function_issue at 1.
    destruct (kind_of node) as [| |name pos| |]; rewrite ?IH; try reflexivity.
    destruct (MAX_LINES <? segment_lines get_source_segment text pos);
      [|reflexivity].
    now rewrite <- List.app_assoc.
Qed.

(** The issues of one text: the security issue first, then the issues of
    the long functions in the order of the walk. *)
Lemma analyze_text_eq (text : str) :
  analyze_text parse get_source_segment text
  = (if contains EVAL text then [security_issue] else [])
    ++ match parse text with
       | Some tree =>
           flat_map (function_issue get_source_segment text) (walk tree)
       | None => []
       end.
Proof.
  unfold analyze_text. destruct (parse text) as [tree|].
  - apply complexity_loop_flat_map.
  - now rewrite List.app_nil_r.
Qed.

Lemma function_issues_types (text : str) (nodes : list ast) :
  length (List.filter (has_type COMPLEXITY)
            (flat_map (function_issue get_source_segment text) nodes))
  = length (List.filter (long_function get_source_segment text) nodes)
  /\ List.filter (has_type SECURITY)
       (flat_map (function_issue get_source_segment text) nodes) = [].
Proof.
  induction nodes as [|node nodes [IH1 IH2]]; [split; reflexivity|].
  simpl. rewrite !List.filter_app, List.length_app, IH1, IH2.
  unfold function_issue, long_function.
  destruct (kind_of node) as [| |name' pos| |]; try (split; reflexivity).
  destruct (MAX_LINES <? segment_lines get_source_segment text pos);
    split; reflexivity.
Qed.

(** The loop of the analyser on readable files. *)
Lemma static_loop_eq (fs : FS) (files : list str) :
  forall issues,
    (forall f, In f files -> is_Some (fs !! f)) ->
    static_loop parse get_source_segment files issues fs
    = (Some (fold_left
               (fun d f =>
                  dict_set f
                    (analyze_text parse get_source_segment
                       (default [] (fs !! f))) d)
               files issues), fs).
Proof.
  induction files as [|f files IH]; intros issues Hread; [reflexivity|].
  destruct (Hread f (or_introl eq_refl)) as [text Htext].
  cbn [static_loop fold_left]. unfold mbind, M_bind, read_file.
  rewrite Htext. simpl. apply IH. intros g Hg. apply Hread. now right.
Qed.

(** An unreadable file makes the analyser raise: [read_file] is outside
    its [try]. *)
Lemma static_loop_raises (fs : FS) (files : list str) :
  forall issues f,
    In f files -> fs !! f = None ->
    static_loop parse get_source_segment files issues fs = (None, fs).
Proof.
  induction files as [|g files IH]; intros issues f Hin Hf; [destruct Hin|].
  cbn [static_loop]. unfold mbind, M_bind, read_file.
  destruct (fs !! g) as [text|] eqn:Hg; [|reflexivity].
  destruct Hin as [->|Hin]; [congruence|]. now apply (IH _ f).
Qed.

Lemma StaticAnalyzerAgent_run_get (fs : FS) (files : list str)
    (f text : str) :
  (forall g, In g files -> is_Some (fs !! g)) ->
  In f files -> fs !! f = Some text ->
  exists issues,
    StaticAnalyzerAgent_run parse get_source_segment files fs
    = (Some issues, fs)
    /\ dict_get f issues
       = Some (analyze_text parse get_source_segment text).
Proof.
  intros Hread Hin Htext. eexists. split.
  - unfold StaticAnalyzerAgent_run. now apply static_loop_eq.
  - rewrite (dict_loop_get
               (fun f => analyze_text parse get_source_segment
                           (default [] (fs !! f)))) by exact Hin.
    now rewrite Htext.
Qed.

(** The loop of the mapper: no file makes it raise. *)
Lemma file_dependencies_eq (fs : FS) (f : str) :
  try_except (file_dependencies parse f) (mret []) fs
  = (Some (dependencies_of parse fs f), fs).
Proof.
  unfold try_except, file_dependencies, dependencies_of.
  unfold mbind, M_bind, read_file, or_raise, mret, M_ret.
  destruct (fs !! f) as [text|]; [|reflexivity].
  now destruct (parse text).
Qed.

Lemma dependency_loop_eq (fs : FS) (files : list str) :
  forall deps,
    dependency_loop parse files deps fs
    = (Some (fold_left
               (fun d f => dict_set f (dependencies_of parse fs f) d)
               files deps), fs).
Proof.
  induction files as [|f files IH]; intros deps; [reflexivity|].
  cbn [dependency_loop fold_left]. unfold mbind at 1, M_bind at 1.
  rewrite file_dependencies_eq. apply IH.
Qed.

End Analysis.

(** ** The claims on the static analyser *)

Lemma security_issue_types :
  has_type SECURITY security_issue = true
  /\ has_type COMPLEXITY security_issue = false.
Proof. split; reflexivity. Qed.

Lemma issue_eqb_complexity_security (name : str) :
  issue_eqb (complexity_issue name) security_issue = false.
Proof. reflexivity. Qed.

(** C5.  The analyser has exactly one security issue for a file whose text
    holds ["eval("], however often, and none for a file whose text does not
    hold it. *)
Theorem one_security_issue_per_flagged_file
    (parse : str -> option ast)
    (get_source_segment : str -> position -> option str)
    (fs : FS) (files : list str) (f text : str) :
  (forall g, In g files -> is_Some (fs !! g)) ->
  In f files -> fs !! f = Some text ->
  exists issues file_issues,
    StaticAnalyzerAgent_run parse get_source_segment files fs
    = (Some issues, fs)
    /\ dict_get f issues = Some file_issues
    /\ length (List.filter (has_type SECURITY) file_issues)
       = (if contains EVAL text then 1 else 0)
    /\ count_issue security_issue file_issues
       = Nat.min 1 (occurrences EVAL text).
Proof.
  intros Hread Hin Htext.
  destruct (StaticAnalyzerAgent_run_get parse get_source_segment
              fs files f text Hread Hin Htext) as (issues & Hrun & Hget).
  exists issues, (analyze_text parse get_source_segment text).
  split; [exact Hrun|]. split; [exact Hget|].
  rewrite analyze_text_eq.
  assert (Hc : forall l : list issue,
             (exists tree, l = flat_map
                (function_issue get_source_segment text) (walk tree))
             \/ l = [] ->
             List.filter (has_type SECURITY) l = []
             /\ count_issue security_issue l = 0).
  { intros l [[tree ->]| ->]; [|split; reflexivity]. split.
    - apply function_issues_types.
    - unfold count_issue.
      induction (walk tree) as [|node nodes IH]; [reflexivity|].
      simpl. rewrite List.filter_app, List.length_app, IH.
      unfold function_issue.
      destruct (kind_of node) as [| |name pos| |]; try reflexivity.
      now destruct (MAX_LINES <? segment_lines get_source_segment text pos). }
  pose proof (contains_occurrences EVAL text ltac:(discriminate)) as Hocc.
  unfold count_issue in *. rewrite !List.filter_app, !List.length_app.
  destruct (Hc (match parse text with
                | Some tree =>
                    flat_map (function_issue get_source_segment text)
                      (walk tree)
                | None => []
                end)) as [-> ->].
  { destruct (parse text) as [tree|]; [left; now exists tree|now right]. }
  destruct (contains EVAL text); simpl.
  - split; [reflexivity|]. destruct Hocc as [Hocc _].
    specialize (Hocc eq_refl).
    destruct (occurrences EVAL text) as [|n]; [lia|reflexivity].
  - split; [reflexivity|].
    destruct (occurrences EVAL text) as [|n]; [reflexivity|].
    destruct Hocc as [_ Hocc]. discriminate Hocc. lia.
Qed.

Lemma one_security_issue_per_flagged_file_witness :
  exists issues file_issues,
    StaticAnalyzerAgent_run Demo.parse Demo.get_source_segment
      Demo.files Demo.repo
    = (Some issues, Demo.repo)
    /\ dict_get Demo.path_a issues = Some file_issues
    /\ length (List.filter (has_type SECURITY) file_issues)
       = (if contains EVAL Demo.one_eval then 1 else 0)
    /\ count_issue security_issue file_issues
       = Nat.min 1 (occurrences EVAL Demo.one_eval).
Proof.
  apply (one_security_issue_per_flagged_file Demo.parse
           Demo.get_source_segment Demo.repo Demo.files Demo.path_a
           Demo.one_eval).
  - intros g [<-|[<-|[<-|[<-|[]]]]]; eexists; reflexivity.
  - simpl. auto.
  - reflexivity.
Defined.

(** The three long functions of the sample are reported once each. *)
Example three_functions_issues :
  analyze_text Demo.parse Demo.get_source_segment Demo.three_functions
  = [complexity_issue (py "outer"); complexity_issue (py "second");
     complexity_issue (py "inner")].
Proof. vm_compute. reflexivity. Qed.

(** C6, as the code has it.  The issues of a file are the security issue,
    if any, and then the complexity issues in the order of [ast.walk],
    which is the level order of the tree: the definitions of one nesting
    depth from left to right, before every definition nested deeper. *)
Theorem issues_in_level_order
    (parse : str -> option ast)
    (get_source_segment : str -> position -> option str)
    (fs : FS) (files : list str) (f text : str) :
  (forall g, In g files -> is_Some (fs !! g)) ->
  In f files -> fs !! f = Some text ->
  exists issues security complexity,
    StaticAnalyzerAgent_run parse get_source_segment files fs
    = (Some issues, fs)
    /\ dict_get f issues = Some (security ++ complexity)
    /\ security = (if contains EVAL text then [security_issue] else [])
    /\ complexity
       = match parse text with
         | Some tree =>
             flat_map (function_issue get_source_segment text)
               (level_order (size tree) [tree])
         | None => []
         end
    /\ Forall (fun i => type i = SECURITY) security
    /\ Forall (fun i => type i = COMPLEXITY) complexity.
Proof.
  intros Hread Hin Htext.
  destruct (StaticAnalyzerAgent_run_get parse get_source_segment
              fs files f text Hread Hin Htext) as (issues & Hrun & Hget).
  exists issues. eexists. eexists.
  split; [exact Hrun|]. split; [|split; [reflexivity|split; [reflexivity|]]].
  - rewrite Hget, analyze_text_eq. do 2 f_equal.
    destruct (parse text) as [tree|]; [|reflexivity].
    now rewrite walk_level_order.
  - split.
    + destruct (contains EVAL text); repeat constructor.
    + destruct (parse text) as [tree|]; [|constructor].
      induction (level_order (size tree) [tree]) as [|node nodes IH];
        [constructor|].
      simpl. apply Forall_app. split; [|exact IH].
      unfold function_issue.
      destruct (kind_of node) as [| |name pos| |]; try constructor.
      destruct (MAX_LINES <? segment_lines get_source_segment text pos);
        repeat constructor.
Qed.

Lemma issues_in_level_order_witness :
  exists issues security complexity,
    StaticAnalyzerAgent_run Demo.parse Demo.get_source_segment
      Demo.files Demo.repo
    = (Some issues, Demo.repo)
    /\ dict_get Demo.path_c issues = Some (security ++ complexity)
    /\ security
       = (if contains EVAL Demo.three_functions then [security_issue]
          else [])
    /\ complexity
       = match Demo.parse Demo.three_functions with
         | Some tree =>
             flat_map
               (function_issue Demo.get_source_segment Demo.three_functions)
               (level_order (size tree) [tree])
         | None => []
         end
    /\ Forall (fun i => type i = SECURITY) security
    /\ Forall (fun i => type i = COMPLEXITY) complexity.
Proof.
  apply (issues_in_level_order Demo.parse Demo.get_source_segment
           Demo.repo Demo.files Demo.path_c Demo.three_functions).
  - intros g [<-|[<-|[<-|[<-|[]]]]]; eexists; reflexivity.
  - simpl. auto.
  - reflexivity.
Defined.

(** C6 as stated fails: the file of the sample has [inner] nested in [outer]
    and [second] after [outer].  Pre-order lists [outer], [inner], [second];
    the analyser reports [outer], [second], [inner]. *)
Lemma issues_not_in_preorder :
  Demo.parse Demo.three_functions = Some Demo.three_functions_tree
  /\ (exists issues,
        StaticAnalyzerAgent_run Demo.parse Demo.get_source_segment
          [Demo.path_c] Demo.repo
        = (Some issues, Demo.repo)
        /\ dict_get Demo.path_c issues
           = Some [complexity_issue (py "outer");
                   complexity_issue (py "second");
                   complexity_issue (py "inner")])
  /\ flat_map (function_issue Demo.get_source_segment Demo.three_functions)
       (preorder Demo.three_functions_tree)
     = [complexity_issue (py "outer"); complexity_issue (py "inner");
        complexity_issue (py "second")]
  /\ [complexity_issue (py "outer"); complexity_issue (py "second");
      complexity_issue (py "inner")]
     <> [complexity_issue (py "outer"); complexity_issue (py "inner");
         complexity_issue (py "second")].
Proof.
  split; [reflexivity|]. split; [|split].
  - eexists. split; vm_compute; reflexivity.
  - vm_compute. reflexivity.
  - vm_compute. discriminate.
Qed.

(** C9.  The security check is the substring test for ["eval("] on the raw
    text, so a file that holds ["ast.literal_eval("] gets the security issue,
    and so does a file that held ["eval("] once [fix_eval] has rewritten
    it. *)
Theorem literal_eval_is_flagged
    (parse : str -> option ast)
    (get_source_segment : str -> position -> option str)
    (repo_path f text : str) (fs : FS) :
  fs !! f = Some text -> truthy f = true ->
  (contains LITERAL_EVAL text = true ->
   exists rest,
     StaticAnalyzerAgent_run parse get_source_segment [f] fs
     = (Some [(f, security_issue :: rest)], fs))
  /\ (contains EVAL text = true ->
      exists changes fs' rest,
        BugFixerAgent_run repo_path [PlanItem (Some f) FIX_EVAL] fs
        = (Some changes, fs')
        /\ fs' !! f = Some (fix_eval_text text)
        /\ contains LITERAL_EVAL (fix_eval_text text) = true
        /\ StaticAnalyzerAgent_run parse get_source_segment [f] fs'
           = (Some [(f, security_issue :: rest)], fs')).
Proof.
  intros Htext Hf.
  assert (Hflag : forall (fs0 : FS) (t : str),
             fs0 !! f = Some t -> contains EVAL t = true ->
             exists rest,
               StaticAnalyzerAgent_run parse get_source_segment [f] fs0
               = (Some [(f, security_issue :: rest)], fs0)).
  { intros fs0 t Ht Hc. unfold StaticAnalyzerAgent_run.
    cbn [static_loop]. unfold mbind, M_bind, read_file. rewrite Ht.
    cbn [dict_set]. rewrite analyze_text_eq, Hc. eexists. reflexivity. }
  split.
  - intros Hc. apply (Hflag fs text Htext), contains_LITERAL_EVAL, Hc.
  - intros Hc.
    assert (Hrun : BugFixerAgent_run repo_path
                     [PlanItem (Some f) FIX_EVAL] fs
                   = (Some [Change f (py "eval() replaced")],
                      <[f := fix_eval_text text]> fs)).
    { unfold BugFixerAgent_run.
      now rewrite (fixer_loop_fix_eval f text) by done. }
    pose proof (fix_eval_text_literal_occurrences text) as Hlit.
    assert (Hnew : <[f := fix_eval_text text]> fs !! f
                   = Some (fix_eval_text text)) by apply lookup_insert_eq.
    destruct (Hflag _ _ Hnew (contains_EVAL_fix_eval_text text Hc))
      as [rest Hrest].
    eexists _, _, rest. split; [exact Hrun|]. split; [exact Hnew|].
    split; [|exact Hrest].
    apply contains_occurrences; [discriminate|]. rewrite Hlit.
    now apply contains_occurrences in Hc.
Qed.

Lemma literal_eval_is_flagged_witness :
  (exists rest,
     StaticAnalyzerAgent_run Demo.parse Demo.get_source_segment
       [Demo.path_a] (<[Demo.path_a := py "x = ast.literal_eval(y)"]> ∅)
     = (Some [(Demo.path_a, security_issue :: rest)],
        <[Demo.path_a := py "x = ast.literal_eval(y)"]> ∅))
  /\ (exists changes fs' rest,
        BugFixerAgent_run (py "demo_repo")
          [PlanItem (Some Demo.path_a) FIX_EVAL]
          (<[Demo.path_a := py "x = ast.literal_eval(y)"]> ∅)
        = (Some changes, fs')
        /\ fs' !! Demo.path_a
           = Some (fix_eval_text (py "x = ast.literal_eval(y)"))
        /\ contains LITERAL_EVAL
             (fix_eval_text (py "x = ast.literal_eval(y)")) = true
        /\ StaticAnalyzerAgent_run Demo.parse Demo.get_source_segment
             [Demo.path_a] fs'
           = (Some [(Demo.path_a, security_issue :: rest)], fs')).
Proof.
  destruct (literal_eval_is_flagged Demo.parse Demo.get_source_segment
              (py "demo_repo") Demo.path_a (py "x = ast.literal_eval(y)")
              (<[Demo.path_a := py "x = ast.literal_eval(y)"]> ∅))
    as [H1 H2]; [reflexivity|reflexivity|].
  split; [apply H1; reflexivity|apply H2; reflexivity].
Defined.

(** ** Sorted name sets *)

Lemma str_ltb_irrefl (a : str) : str_ltb a a = false.
Proof.
  induction a as [|x a IH]; simpl; [reflexivity|].
  now rewrite N.ltb_irrefl, N.eqb_refl, IH.
Qed.

Lemma str_ltb_trans (a b c : str) :
  str_ltb a b = true -> str_ltb b c = true -> str_ltb a c = true.
Proof.
  revert b c. induction a as [|x a IH]; intros [|y b] [|z c]; simpl;
    try discriminate; try reflexivity.
  intros Hab Hbc.
  apply orb_prop in Hab as [Hab|Hab]; apply orb_prop in Hbc as [Hbc|Hbc].
  - apply N.ltb_lt in Hab, Hbc.
    apply orb_true_intro. left. apply N.ltb_lt. lia.
  - apply andb_prop in Hbc as [Hyz _]. apply N.eqb_eq in Hyz. subst z.
    now rewrite Hab.
  - apply andb_prop in Hab as [Hxy _]. apply N.eqb_eq in Hxy. subst y.
    now rewrite Hbc.
  - apply andb_prop in Hab as [Hxy Hab]. apply andb_prop in Hbc as [Hyz Hbc].
    apply N.eqb_eq in Hxy, Hyz. subst y z. rewrite N.eqb_refl.
    rewrite (IH b c Hab Hbc). apply orb_true_r.
Qed.

Lemma str_ltb_total (a b : str) :
  a <> b -> str_ltb a b = false -> str_ltb b a = true.
Proof.
  revert b. induction a as [|x a IH]; intros [|y b] Hne; simpl;
    try congruence.
  intros H. apply orb_false_elim in H as [Hlt H].
  apply N.ltb_ge in Hlt. destruct (N.eqb_spec x y) as [->|Hxy].
  - simpl in H. rewrite N.eqb_refl, IH; [apply orb_true_r| |exact H].
    congruence.
  - apply orb_true_intro. left. apply N.ltb_lt. lia.
Qed.

Lemma insert_sorted_In (x z : str) (l : list str) :
  In z (insert_sorted x l) <-> z = x \/ In z l.
Proof.
  induction l as [|y l IH]; simpl; [intuition congruence|].
  destruct (str_eqb x y) eqn:E.
  - apply str_eqb_true in E. subst y. simpl. intuition congruence.
  - destruct (str_ltb x y); simpl; [intuition congruence|].
    rewrite IH. intuition congruence.
Qed.

Lemma insert_sorted_sorted (x : str) (l : list str) :
  StronglySorted (fun a b => str_ltb a b = true) l ->
  StronglySorted (fun a b => str_ltb a b = true) (insert_sorted x l).
Proof.
  induction 1 as [|y l Hs IH Hy]; simpl; [repeat constructor|].
  destruct (str_eqb x y) eqn:E; [now constructor|].
  apply str_eqb_false in E.
  destruct (str_ltb x y) eqn:Hxy.
  - constructor; [now constructor|]. constructor; [exact Hxy|].
    rewrite List.Forall_forall in Hy |- *. intros z Hz.
    apply (str_ltb_trans x y z Hxy), Hy, Hz.
  - constructor; [exact IH|].
    rewrite List.Forall_forall in Hy |- *. intros z Hz.
    apply insert_sorted_In in Hz as [->|Hz]; [|now apply Hy].
    now apply str_ltb_total.
Qed.

(** [sorted_set] keeps the names, each once, in strictly increasing
    order. *)
Lemma sorted_set_spec (l : list str) :
  (forall x, In x (sorted_set l) <-> In x l)
  /\ StronglySorted (fun a b => str_ltb a b = true) (sorted_set l).
Proof.
  induction l as [|y l [IHin IHs]]; simpl.
  - split; [reflexivity|constructor].
  - split; [|now apply insert_sorted_sorted].
    intros x. rewrite insert_sorted_In, IHin. intuition congruence.
Qed.

(** ** The claims on the dependency mapper *)

(** C7.  The mapper returns for every file set and never raises.  The entry
    of a file that does not parse is empty, and so is the entry of a file
    that cannot be read; the entry of every other file is the sorted set of
    its imports, whatever the other files are. *)
Theorem dependency_mapper_never_raises
    (parse : str -> option ast) (fs : FS) (files : list str) :
  exists deps,
    DependencyMapperAgent_run parse files fs = (Some deps, fs)
    /\ (forall f text,
          In f files -> fs !! f = Some text -> parse text = None ->
          dict_get f deps = Some [])
    /\ (forall f, In f files -> fs !! f = None -> dict_get f deps = Some [])
    /\ (forall f text tree,
          In f files -> fs !! f = Some text -> parse text = Some tree ->
          dict_get f deps
          = Some (sorted_set (collect_imports (walk tree) []))).
Proof.
  eexists. split; [apply dependency_loop_eq|].
  split; [|split].
  - intros f text Hin Ht Hp.
    rewrite (dict_loop_get (dependencies_of parse fs)) by exact Hin.
    unfold dependencies_of. now rewrite Ht, Hp.
  - intros f Hin Ht.
    rewrite (dict_loop_get (dependencies_of parse fs)) by exact Hin.
    unfold dependencies_of. now rewrite Ht.
  - intros f text tree Hin Ht Hp.
    rewrite (dict_loop_get (dependencies_of parse fs)) by exact Hin.
    unfold dependencies_of. now rewrite Ht, Hp.
Qed.

(** On the sample: the file that does not parse stands between files that
    are analysed, and a missing file is swallowed too. *)
Example dependency_mapper_sample :
  DependencyMapperAgent_run Demo.parse
    [Demo.path_b; Demo.path_d; py "demo_repo/missing.py"; Demo.path_a]
    Demo.repo
  = (Some [(Demo.path_b, []); (Demo.path_d, [py "a"; py "os"]);
           (py "demo_repo/missing.py", []); (Demo.path_a, [])],
     Demo.repo).
Proof. vm_compute. reflexivity. Qed.

(** C10.  For a file set (no path twice), the keys of the dependency map are
    the files in their order, and so are the keys of the issue report the
    analyser returns; the analyser returns when every file can be read. *)
Theorem one_entry_per_file
    (parse : str -> option ast)
    (get_source_segment : str -> position -> option str)
    (fs : FS) (files : list str) :
  List.NoDup files ->
  (exists deps,
     DependencyMapperAgent_run parse files fs = (Some deps, fs)
     /\ dict_keys deps = files)
  /\ ((forall f, In f files -> is_Some (fs !! f)) ->
      exists issues,
        StaticAnalyzerAgent_run parse get_source_segment files fs
        = (Some issues, fs)
        /\ dict_keys issues = files).
Proof.
  intros Hnd. split.
  - eexists. split; [apply dependency_loop_eq|].
    rewrite dict_loop_keys by exact Hnd.
    unfold dict_keys. simpl. rewrite List.map_map. simpl. apply List.map_id.
  - intros Hread. eexists. split.
    + unfold StaticAnalyzerAgent_run. now apply static_loop_eq.
    + rewrite (dict_loop_keys
                 (fun f => analyze_text parse get_source_segment
                             (default [] (fs !! f)))) by exact Hnd.
      unfold dict_keys. simpl. rewrite List.map_map. simpl.
      apply List.map_id.
Qed.

Lemma Demo_files_NoDup : List.NoDup Demo.files.
Proof.
  unfold Demo.files. repeat constructor; simpl; intuition discriminate.
Qed.

Lemma one_entry_per_file_witness :
  (exists deps,
     DependencyMapperAgent_run Demo.parse Demo.files Demo.repo
     = (Some deps, Demo.repo)
     /\ dict_keys deps = Demo.files)
  /\ (exists issues,
        StaticAnalyzerAgent_run Demo.parse Demo.get_source_segment
          Demo.files Demo.repo
        = (Some issues, Demo.repo)
        /\ dict_keys issues = Demo.files).
Proof.
  destruct (one_entry_per_file Demo.parse Demo.get_source_segment
              Demo.repo Demo.files Demo_files_NoDup) as [H1 H2].
  split; [exact H1|]. apply H2.
  intros g [<-|[<-|[<-|[<-|[]]]]]; eexists; reflexivity.
Defined.

(** ** The claim on the fix planner *)

(** The action the planner's table gives an issue of the two kinds. *)
Lemma plan_file_eq (f : str) (iss : list issue) :
  forall plan,
    (forall i, In i iss -> type i = SECURITY \/ type i = COMPLEXITY) ->
    plan_file f iss plan
    = plan
      ++ List.map
           (fun i =>
              PlanItem (Some f)
                (if str_eqb (type i) SECURITY then FIX_EVAL
                 else REFACTOR_NOTE))
           iss.
Proof.
  induction iss as [|i iss IH]; intros plan Hty; cbn [plan_file List.map].
  - now rewrite List.app_nil_r.
  - assert (Hrest : forall j, In j iss ->
                      type j = SECURITY \/ type j = COMPLEXITY)
      by (intros j Hj; apply Hty; now right).
    destruct (Hty i (or_introl eq_refl)) as [Hi|Hi]; rewrite Hi.
    + change (str_eqb SECURITY SECURITY) with true. cbn iota.
      rewrite IH by exact Hrest. now rewrite <- List.app_assoc.
    + change (str_eqb COMPLEXITY SECURITY) with false.
      change (str_eqb COMPLEXITY COMPLEXITY) with true. cbn iota.
      rewrite IH by exact Hrest. now rewrite <- List.app_assoc.
Qed.

Lemma plan_loop_eq (issues : list (str * list issue)) :
  forall plan,
    (forall f iss i, In (f, iss) issues -> In i iss ->
       type i = SECURITY \/ type i = COMPLEXITY) ->
    plan_loop issues plan
    = plan
      ++ flat_map
           (fun entry =>
              List.map
                (fun i =>
                   PlanItem (Some (fst entry))
                     (if str_eqb (type i) SECURITY then FIX_EVAL
                      else REFACTOR_NOTE))
                (snd entry))
           issues.
Proof.
  induction issues as [|[f iss] issues IH]; intros plan Hty;
    cbn [plan_loop flat_map fst snd].
  - now rewrite List.app_nil_r.
  - rewrite IH by (intros g l i Hg; apply (Hty g l i); now right).
    rewrite plan_file_eq by (intros i; apply (Hty f iss i); now left).
    now rewrite <- List.app_assoc.
Qed.

(** C4.  For a report whose issues are of the two kinds, the plan has one
    action for each issue, file by file in the order of the report and issue
    by issue in the order of the file, and then, if the tests failed, the
    one action [investigate_test_failure] without a file.  Its length is the
    number of issues, plus one if the tests failed. *)
Theorem plan_length
    (issues : list (str * list issue)) (tests : test_result) :
  (forall f iss i, In (f, iss) issues -> In i iss ->
     type i = SECURITY \/ type i = COMPLEXITY) ->
  FixPlannerAgent_run issues tests
  = flat_map
      (fun entry =>
         List.map
           (fun i =>
              PlanItem (Some (fst entry))
                (if str_eqb (type i) SECURITY then FIX_EVAL
                 else REFACTOR_NOTE))
           (snd entry))
      issues
    ++ (if success_of tests then [] else [PlanItem None INVESTIGATE])
  /\ length (FixPlannerAgent_run issues tests)
     = list_sum (List.map (fun entry => length (snd entry)) issues)
       + (if success_of tests then 0 else 1).
Proof.
  intros Hty.
  assert (Heq : FixPlannerAgent_run issues tests
                = flat_map
                    (fun entry =>
                       List.map
                         (fun i =>
                            PlanItem (Some (fst entry))
                              (if str_eqb (type i) SECURITY then FIX_EVAL
                               else REFACTOR_NOTE))
                         (snd entry))
                    issues
                  ++ (if success_of tests then []
                      else [PlanItem None INVESTIGATE])).
  { unfold FixPlannerAgent_run. rewrite plan_loop_eq by exact Hty.
    destruct (success_of tests); simpl; [now rewrite List.app_nil_r|].
    reflexivity. }
  split; [exact Heq|]. rewrite Heq, List.length_app. f_equal.
  - clear. induction issues as [|[f iss] issues IH]; [reflexivity|].
    simpl. now rewrite List.length_app, List.length_map, IH.
  - now destruct (success_of tests).
Qed.

Lemma plan_length_witness :
  FixPlannerAgent_run
    [(Demo.path_a, [security_issue]); (Demo.path_b, []);
     (Demo.path_c, [complexity_issue (py "outer");
                    complexity_issue (py "second")])]
    (RunnerResult false [] (py "timed out"))
  = [PlanItem (Some Demo.path_a) FIX_EVAL;
     PlanItem (Some Demo.path_c) REFACTOR_NOTE;
     PlanItem (Some Demo.path_c) REFACTOR_NOTE;
     PlanItem None INVESTIGATE]
  /\ length
       (FixPlannerAgent_run
          [(Demo.path_a, [security_issue]); (Demo.path_b, []);
           (Demo.path_c, [complexity_issue (py "outer");
                          complexity_issue (py "second")])]
          (RunnerResult false [] (py "timed out")))
     = 3 + 1.
Proof.
  apply (plan_length
           [(Demo.path_a, [security_issue]); (Demo.path_b, []);
            (Demo.path_c, [complexity_issue (py "outer");
                           complexity_issue (py "second")])]
           (RunnerResult false [] (py "timed out"))).
  intros f iss i Hf Hi. simpl in Hf.
  destruct Hf as [Hf|[Hf|[Hf|[]]]]; inversion Hf; subst; simpl in Hi;
    intuition (subst; auto).
Defined.

(** ** The claim on the test runner *)

Section TestRunner.

Variable subprocess_run : str -> str -> nat -> process_outcome.
Variable tests_dir_exists : str -> bool.
Variable list_source_files : str -> list str.
Variable compile_error : str -> str -> option str.
Variable read_error : str -> str.

(** The entry of [errors] for one file, if it has one. *)
Lemma compile_loop_eq (fs : FS) (files : list str) :
  forall errors,
    compile_loop compile_error read_error files errors fs
    = (Some (errors
             ++ flat_map
                  (fun f =>
                     match fs !! f with
                     | None => [(f, read_error f)]
                     | Some text =>
                         match compile_error text f with
                         | Some e => [(f, e)]
                         | None => []
                         end
                     end)
                  files), fs).
Proof.
  induction files as [|f files IH]; intros errors;
    cbn [compile_loop flat_map].
  - now rewrite List.app_nil_r.
  - unfold mbind at 1, M_bind at 1, compile_check.
    destruct (fs !! f) as [text|];
      [destruct (compile_error text f) as [e|]|];
      rewrite IH; simpl; now rewrite <- ?List.app_assoc, ?List.app_nil_r.
Qed.

(** C8.  The test runner returns one result and never raises.  With a
    [tests] directory the result has the runner's shape: [success] is
    "exit code zero" when the process completes, and when starting or
    awaiting it raises, [success] is false, [stdout] is empty and [stderr]
    is the message of the exception.  Without one the result has the other
    shape: the files that do not read or compile, and [success] is "there
    are none". *)
Theorem test_runner_never_raises (repo_path : str) (fs : FS) :
  (tests_dir_exists repo_path = true ->
   forall message,
     subprocess_run (py "pytest -q") repo_path 30 = Raised message ->
     TestRunnerAgent_run subprocess_run tests_dir_exists list_source_files
       compile_error read_error repo_path fs
     = (Some (RunnerResult false [] message), fs))
  /\ (tests_dir_exists repo_path = true ->
      forall code out err,
        subprocess_run (py "pytest -q") repo_path 30
        = Completed code out err ->
        TestRunnerAgent_run subprocess_run tests_dir_exists
          list_source_files compile_error read_error repo_path fs
        = (Some (RunnerResult (code =? 0)%Z out err), fs))
  /\ (tests_dir_exists repo_path = false ->
      exists errors,
        TestRunnerAgent_run subprocess_run tests_dir_exists
          list_source_files compile_error read_error repo_path fs
        = (Some (CompileResult (Nat.eqb (length errors) 0) errors), fs)
        /\ errors
           = flat_map
               (fun f =>
                  match fs !! f with
                  | None => [(f, read_error f)]
                  | Some text =>
                      match compile_error text f with
                      | Some e => [(f, e)]
                      | None => []
                      end
                  end)
               (list_source_files repo_path))
  /\ (exists result,
        TestRunnerAgent_run subprocess_run tests_dir_exists
          list_source_files compile_error read_error repo_path fs
        = (Some result, fs)).
Proof.
  unfold TestRunnerAgent_run, run_cmd.
  split; [|split; [|split]].
  - intros -> message ->. reflexivity.
  - intros -> code out err ->. reflexivity.
  - intros ->. eexists. split; [|reflexivity].
    unfold mbind, M_bind. now rewrite compile_loop_eq.
  - destruct (tests_dir_exists repo_path).
    + destruct (subprocess_run (py "pytest -q") repo_path 30);
        eexists; reflexivity.
    + unfold mbind, M_bind. rewrite compile_loop_eq.
      eexists; reflexivity.
Qed.

End TestRunner.

Lemma test_runner_never_raises_witness :
  TestRunnerAgent_run Demo.subprocess_run Demo.tests_dir_exists
    Demo.list_source_files Demo.compile_error Demo.read_error
    (py "demo_repo") Demo.repo
  = (Some (RunnerResult false []
             (py "Command 'pytest -q' timed out after 30 seconds")),
     Demo.repo)
  /\ exists errors,
       TestRunnerAgent_run Demo.subprocess_run Demo.tests_dir_exists
         Demo.list_source_files Demo.compile_error Demo.read_error
         (py "elsewhere") Demo.repo
       = (Some (CompileResult (Nat.eqb (length errors) 0) errors), Demo.repo)
       /\ errors = [(Demo.path_b, py "invalid syntax")].
Proof.
  split.
  - apply (test_runner_never_raises Demo.subprocess_run
             Demo.tests_dir_exists Demo.list_source_files
             Demo.compile_error Demo.read_error (py "demo_repo") Demo.repo);
      reflexivity.
  - destruct (test_runner_never_raises Demo.subprocess_run
                Demo.tests_dir_exists Demo.list_source_files
                Demo.compile_error Demo.read_error (py "elsewhere")
                Demo.repo) as (_ & _ & H & _).
    destruct (H eq_refl) as (errors & Hrun & Herr).
    exists errors. split; [exact Hrun|]. rewrite Herr. reflexivity.
Defined.

(** * Further properties of the pipeline *)

(** ** Splitting and joining *)

Lemma split_on_nonempty (sep : N) (s : str) : split_on sep s <> [].
Proof.
  destruct s as [|c rest]; simpl; [discriminate|].
  destruct (c =? sep)%N; [discriminate|].
  destruct (split_on sep rest); discriminate.
Qed.

Lemma split_on_length (sep : N) (s : str) :
  length (split_on sep s)
  = S (length (List.filter (fun c => (c =? sep)%N) s)).
Proof.
  induction s as [|c rest IH]; simpl; [reflexivity|].
  destruct (c =? sep)%N; simpl; [now rewrite IH|].
  pose proof (split_on_nonempty sep rest) as Hne.
  destruct (split_on sep rest) as [|w ws]; [congruence|exact IH].
Qed.

Lemma join_cons (sep p q : str) (rest : list str) :
  join sep (p :: q :: rest) = p ++ sep ++ join sep (q :: rest).
Proof. reflexivity. Qed.

Lemma split_on_join (sep : N) (s : str) :
  join [sep] (split_on sep s) = s.
Proof.
  induction s as [|c rest IH]; simpl; [reflexivity|].
  pose proof (split_on_nonempty sep rest) as Hne.
  destruct (N.eqb_spec c sep) as [->|Hc].
  - destruct (split_on sep rest) as [|w ws]; [congruence|].
    rewrite join_cons, IH. reflexivity.
  - destruct (split_on sep rest) as [|w ws]; [congruence|].
    destruct ws as [|w' ws]; [simpl in *; congruence|].
    rewrite join_cons in IH |- *.
    transitivity (c :: (w ++ [sep] ++ join [sep] (w' :: ws)));
      [reflexivity|now f_equal].
Qed.

Lemma split_on_pieces (sep : N) (s : str) :
  forall piece, In piece (split_on sep s) -> ~ In sep piece.
Proof.
  induction s as [|c rest IH]; simpl.
  - intros piece [<-|[]] [].
  - destruct (N.eqb_spec c sep) as [->|Hc].
    + intros piece [<-|Hp]; [intros []|now apply IH].
    + pose proof (split_on_nonempty sep rest) as Hne.
      destruct (split_on sep rest) as [|w ws]; [congruence|].
      intros piece [<-|Hp].
      * intros [Heq|Hin]; [congruence|].
        apply (IH w); [now left|exact Hin].
      * apply IH. now right.
Qed.

(** X1.  [s.split(sep)] has one piece more than [s] has separators, no
    piece holds the separator, and [sep.join] of the pieces is [s] again. *)
Theorem split_join_round_trip (sep : N) (s : str) :
  join [sep] (split_on sep s) = s
  /\ length (split_on sep s)
     = S (length (List.filter (fun c => (c =? sep)%N) s))
  /\ (forall piece, In piece (split_on sep s) -> ~ In sep piece).
Proof.
  split; [apply split_on_join|].
  split; [apply split_on_length|apply split_on_pieces].
Qed.

(** X2.  The complexity check reports a function definition exactly when
    its source segment has at least 120 line feeds; a definition for which
    [ast.get_source_segment] has no segment counts as one empty line and is
    never reported. *)
Theorem function_issue_threshold
    (get_source_segment : str -> position -> option str)
    (text name : str) (pos : position) (body : list ast) :
  (function_issue get_source_segment text
     (Node (FunctionDef name pos) body) = [complexity_issue name]
   <-> exists src,
         get_source_segment text pos = Some src
         /\ 120 <= length (List.filter (fun c => (c =? NEWLINE)%N) src))
  /\ (function_issue get_source_segment text
        (Node (FunctionDef name pos) body) = [complexity_issue name]
      \/ function_issue get_source_segment text
           (Node (FunctionDef name pos) body) = []).
Proof.
  unfold function_issue, segment_lines, MAX_LINES. cbn [kind_of].
  rewrite split_on_length.
  destruct (Nat.ltb_spec 120
              (S (length
                    (List.filter (fun c => (c =? NEWLINE)%N)
                       (default [] (get_source_segment text pos))))))
    as [Hlt|Hge].
  - split; [|now left]. split; [intros _|reflexivity].
    destruct (get_source_segment text pos) as [src|]; simpl in Hlt.
    + exists src. split; [reflexivity|lia].
    + lia.
  - split; [|now right]. split; [discriminate|].
    intros (src & Hsrc & Hlen). rewrite Hsrc in Hge. simpl in Hge. lia.
Qed.

(** ** Long function definitions *)

(** The test of the analyser, [len(src.split("\n")) > 120], in line
    feeds. *)
Lemma complexity_test_lines
    (get_source_segment : str -> position -> option str)
    (text : str) (pos : position) :
  (MAX_LINES <? segment_lines get_source_segment text pos)
  = (120 <? lines_spanned (default [] (get_source_segment text pos))).
Proof.
  unfold MAX_LINES, segment_lines, lines_spanned.
  now rewrite split_on_length.
Qed.

Lemma function_issues_long_defs
    (get_source_segment : str -> position -> option str)
    (text : str) (nodes : list ast) :
  (forall name,
     count_issue (complexity_issue name)
       (flat_map (function_issue get_source_segment text) nodes)
     = length
         (List.filter (long_def_named get_source_segment text name) nodes))
  /\ length
       (List.filter (has_type COMPLEXITY)
          (flat_map (function_issue get_source_segment text) nodes))
     = length (List.filter (long_def get_source_segment text) nodes).
Proof.
  unfold count_issue.
  induction nodes as [|node nodes [IH1 IH2]]; [split; reflexivity|].
  cbn [flat_map List.filter]. split.
  - intros name. rewrite List.filter_app, List.length_app, IH1.
    unfold function_issue, long_def_named.
    destruct (kind_of node) as [| |name' pos| |]; try reflexivity.
    rewrite complexity_test_lines.
    destruct (120 <? lines_spanned
                       (default [] (get_source_segment text pos)));
      simpl; rewrite ?andb_false_r; [|reflexivity].
    rewrite issue_eqb_complexity, andb_true_r.
    now destruct (str_eqb name' name).
  - rewrite List.filter_app, List.length_app, IH2.
    unfold function_issue, long_def.
    destruct (kind_of node) as [| |name' pos| |]; try reflexivity.
    rewrite complexity_test_lines.
    now destruct (120 <? lines_spanned
                           (default [] (get_source_segment text pos))).
Qed.

(** C3, as the code has it.  For a file that reads and parses, and for the
    function definitions written with [def]: the analyser has as many
    complexity issues naming a function as the tree has definitions of that
    name whose source, from the line of the [def] to the last line (header
    and body together), spans more than 120 lines, that is, holds at least
    120 line feeds.  So each such definition gets exactly one issue, a
    definition of 120 lines or fewer gets none, and there are no other
    complexity issues. *)
Theorem one_complexity_issue_per_long_def
    (parse : str -> option ast)
    (get_source_segment : str -> position -> option str)
    (fs : FS) (files : list str) (f text : str) (tree : ast) :
  (forall g, In g files -> is_Some (fs !! g)) ->
  In f files -> fs !! f = Some text -> parse text = Some tree ->
  exists issues file_issues,
    StaticAnalyzerAgent_run parse get_source_segment files fs
    = (Some issues, fs)
    /\ dict_get f issues = Some file_issues
    /\ (forall name,
          count_issue (complexity_issue name) file_issues
          = length
              (List.filter (long_def_named get_source_segment text name)
                 (preorder tree)))
    /\ length (List.filter (has_type COMPLEXITY) file_issues)
       = length
           (List.filter (long_def get_source_segment text) (preorder tree)).
Proof.
  intros Hread Hin Htext Hparse.
  destruct (StaticAnalyzerAgent_run_get parse get_source_segment
              fs files f text Hread Hin Htext) as (issues & Hrun & Hget).
  exists issues, (analyze_text parse get_source_segment text).
  split; [exact Hrun|]. split; [exact Hget|].
  rewrite analyze_text_eq, Hparse.
  destruct (function_issues_long_defs get_source_segment text (walk tree))
    as [Hnamed Hall].
  split.
  - intros name. unfold count_issue.
    rewrite List.filter_app, List.length_app.
    fold (count_issue (complexity_issue name)
            (flat_map (function_issue get_source_segment text) (walk tree))).
    rewrite Hnamed.
    rewrite (filter_length_Permutation _ _ _ (walk_Permutation tree)).
    now destruct (contains EVAL text).
  - rewrite List.filter_app, List.length_app, Hall.
    rewrite (filter_length_Permutation _ _ _ (walk_Permutation tree)).
    now destruct (contains EVAL text).
Qed.

Lemma one_complexity_issue_per_long_def_witness :
  exists issues file_issues,
    StaticAnalyzerAgent_run Demo.parse Demo.get_source_segment
      Demo.files Demo.repo
    = (Some issues, Demo.repo)
    /\ dict_get Demo.path_c issues = Some file_issues
    /\ (forall name,
          count_issue (complexity_issue name) file_issues
          = length
              (List.filter
                 (long_def_named Demo.get_source_segment
                    Demo.three_functions name)
                 (preorder Demo.three_functions_tree)))
    /\ length (List.filter (has_type COMPLEXITY) file_issues)
       = length
           (List.filter
              (long_def Demo.get_source_segment Demo.three_functions)
              (preorder Demo.three_functions_tree)).
Proof.
  apply (one_complexity_issue_per_long_def Demo.parse
           Demo.get_source_segment Demo.repo Demo.files Demo.path_c
           Demo.three_functions Demo.three_functions_tree).
  - intros g [<-|[<-|[<-|[<-|[]]]]]; eexists; reflexivity.
  - simpl. auto.
  - reflexivity.
  - reflexivity.
Defined.

(** C3 as stated fails, in two ways.  The file [fetch.py] is one function
    definition [async def fetch] that spans 130 lines, and the analyser has
    no complexity issue for it: it looks at [FunctionDef] nodes only.  The
    file [f.py] is [def f] with a body of exactly 120 lines, 121 lines with
    the line of the [def], and the analyser has a complexity issue for [f]:
    it counts the lines of the whole definition, not of the body. *)
Lemma long_function_claim_fails :
  Sample.parse Sample.async_long = Some Sample.async_long_tree
  /\ In Sample.async_long_def (preorder Sample.async_long_tree)
  /\ is_function_definition Sample.async_long_def = true
  /\ lines_spanned
       (default []
          (Demo.get_source_segment Sample.async_long Sample.async_long_pos))
     = 130
  /\ Sample.parse Sample.body_120 = Some Sample.body_120_tree
  /\ In Sample.body_120_def (preorder Sample.body_120_tree)
  /\ Demo.get_source_segment Sample.body_120 Sample.body_120_pos
     = Some (py "def f():" ++ [NEWLINE] ++ Sample.body_120_body)
  /\ lines_spanned Sample.body_120_body = 120
  /\ StaticAnalyzerAgent_run Sample.parse Demo.get_source_segment
       [Sample.path_async; Sample.path_body] Sample.long_repo
     = (Some [(Sample.path_async, []);
              (Sample.path_body, [complexity_issue (py "f")])],
        Sample.long_repo).
Proof.
  split; [vm_compute; reflexivity|]. split; [right; left; reflexivity|].
  split; [reflexivity|]. split; [vm_compute; reflexivity|].
  split; [vm_compute; reflexivity|]. split; [right; left; reflexivity|].
  split; [vm_compute; reflexivity|]. split; [vm_compute; reflexivity|].
  vm_compute. reflexivity.
Qed.

(** X3.  [name.split(".")[0]] is the part of the name before its first dot:
    it holds no dot, and the name is this part alone or this part, a dot and
    the rest. *)
Theorem top_level_prefix (name : str) :
  ~ In DOT (top_level name)
  /\ (name = top_level name
      \/ exists rest, name = top_level name ++ DOT :: rest)
  /\ (~ In DOT name -> top_level name = name).
Proof.
  unfold top_level.
  pose proof (split_on_nonempty DOT name) as Hne.
  pose proof (split_on_join DOT name) as Hjoin.
  pose proof (split_on_pieces DOT name) as Hpieces.
  destruct (split_on DOT name) as [|w ws]; [congruence|].
  cbn [hd]. assert (Hw : ~ In DOT w) by (apply Hpieces; now left).
  assert (Hname : name = w \/ exists rest, name = w ++ DOT :: rest).
  { destruct ws as [|w' ws]; [now left|].
    rewrite join_cons in Hjoin. right. eexists. symmetry. exact Hjoin. }
  split; [exact Hw|]. split; [exact Hname|].
  intros Hnodot. destruct Hname as [->|[rest ->]]; [reflexivity|].
  exfalso. apply Hnodot. rewrite in_app_iff. right. now left.
Qed.

(** ** The entries of the dependency map *)

Lemma collect_imports_flat_map (nodes : list ast) :
  forall imports,
    collect_imports nodes imports
    = imports ++ flat_map node_imports nodes.
Proof.
  induction nodes as [|node nodes IH]; intros imports;
    cbn [collect_imports flat_map].
  - now rewrite List.app_nil_r.
  - unfold node_imports at 1.
    destruct (kind_of node) as [names|[m|]|name pos| |];
      rewrite ?IH; try reflexivity.
    + now rewrite <- List.app_assoc.
    + destruct (truthy m); [|reflexivity].
      now rewrite <- List.app_assoc.
Qed.

(** X4.  The entry of a file that parses lists, in strictly increasing order
    and so each once, the top-level names of the imports of all nodes of its
    tree, those nested in function bodies among them. *)
Theorem dependency_entry_sorted_imports
    (parse : str -> option ast) (fs : FS) (files : list str)
    (f text : str) (tree : ast) :
  In f files -> fs !! f = Some text -> parse text = Some tree ->
  exists deps entry,
    DependencyMapperAgent_run parse files fs = (Some deps, fs)
    /\ dict_get f deps = Some entry
    /\ StronglySorted (fun a b => str_ltb a b = true) entry
    /\ (forall x,
          In x entry
          <-> exists node, In node (preorder tree) /\ In x (node_imports node)).
Proof.
  intros Hin Htext Hparse. eexists. eexists.
  split; [apply dependency_loop_eq|]. split.
  - rewrite (dict_loop_get (dependencies_of parse fs)) by exact Hin.
    unfold dependencies_of. rewrite Htext, Hparse. reflexivity.
  - destruct (sorted_set_spec (collect_imports (walk tree) [])) as [Hmem Hs].
    split; [exact Hs|]. intros x. rewrite Hmem.
    rewrite collect_imports_flat_map. cbn [List.app].
    rewrite in_flat_map. split; intros (node & Hnode & Hx); exists node.
    + split; [|exact Hx].
      apply (Permutation_in _ (walk_Permutation tree)), Hnode.
    + split; [|exact Hx].
      apply (Permutation_in _ (Permutation_sym (walk_Permutation tree))),
        Hnode.
Qed.

Lemma dependency_entry_sorted_imports_witness :
  exists deps entry,
    DependencyMapperAgent_run Demo.parse Demo.files Demo.repo
    = (Some deps, Demo.repo)
    /\ dict_get Demo.path_d deps = Some entry
    /\ StronglySorted (fun a b => str_ltb a b = true) entry
    /\ (forall x,
          In x entry
          <-> exists node,
                In node (preorder Demo.two_imports_tree)
                /\ In x (node_imports node)).
Proof.
  apply (dependency_entry_sorted_imports Demo.parse Demo.repo Demo.files
           Demo.path_d Demo.two_imports Demo.two_imports_tree).
  - simpl. auto.
  - reflexivity.
  - reflexivity.
Defined.

(** ** BugFixerAgent: the loop over the plan *)

Lemma fixer_loop_skip (item : plan_item) (rest : list plan_item)
    (changes : list change) (fs : FS) :
  acts_on item = false ->
  fixer_loop (item :: rest) changes fs = fixer_loop rest changes fs.
Proof.
  destruct item as [[f|] a]; unfold acts_on; cbn [fixer_loop file action];
    [|reflexivity].
  destruct (truthy f); [|reflexivity]. cbn [andb].
  intros H. apply orb_false_elim in H as [-> ->]. reflexivity.
Qed.

Lemma fixer_loop_act (item : plan_item) (f : str) (rest : list plan_item)
    (changes : list change) (fs : FS) :
  acts_on item = true -> file item = Some f ->
  fixer_loop (item :: rest) changes fs
  = match fs !! f with
    | Some t =>
        fixer_loop rest (changes ++ [change_of item])
          (<[f := apply_action (action item) t]> fs)
    | None => (None, fs)
    end.
Proof.
  destruct item as [fo a]. unfold acts_on, change_of, apply_action.
  cbn [fixer_loop file action]. intros Hact ->. cbn [default] in *.
  destruct (truthy f); [|discriminate]. cbn [andb] in *.
  unfold mbind, M_bind, read_file, write_file.
  destruct (str_eqb a FIX_EVAL) eqn:Ha.
  - now destruct (fs !! f).
  - cbn [orb] in Hact. rewrite Hact. now destruct (fs !! f).
Qed.

(** The changes already made are carried along. *)
Lemma fixer_loop_changes (plan : list plan_item) :
  forall changes fs,
    fixer_loop plan changes fs
    = (option_map (fun new => changes ++ new) (fst (fixer_loop plan [] fs)),
       snd (fixer_loop plan [] fs)).
Proof.
  induction plan as [|item plan IH]; intros changes fs.
  - simpl. now rewrite List.app_nil_r.
  - destruct (acts_on item) eqn:Hact.
    + assert (Hf : exists f, file item = Some f).
      { unfold acts_on in Hact. destruct (file item) as [f|]; [|discriminate].
        now exists f. }
      destruct Hf as [f Hf].
      rewrite !(fixer_loop_act item f) by assumption.
      destruct (fs !! f) as [t|]; [|reflexivity].
      rewrite (IH (changes ++ [change_of item])), (IH ([] ++ [change_of item])).
      destruct (fst (fixer_loop plan [] _)) as [new|]; simpl; [|reflexivity].
      now rewrite <- List.app_assoc.
    + rewrite !fixer_loop_skip by exact Hact. apply IH.
Qed.

Lemma fixer_loop_app (p1 p2 : list plan_item) :
  forall changes fs,
    fixer_loop (p1 ++ p2) changes fs
    = match fixer_loop p1 changes fs with
      | (Some changes1, fs1) => fixer_loop p2 changes1 fs1
      | (None, fs1) => (None, fs1)
      end.
Proof.
  induction p1 as [|item p1 IH]; intros changes fs; [reflexivity|].
  cbn [List.app]. destruct (acts_on item) eqn:Hact.
  - assert (Hf : exists f, file item = Some f).
    { unfold acts_on in Hact. destruct (file item) as [f|]; [|discriminate].
      now exists f. }
    destruct Hf as [f Hf].
    rewrite !(fixer_loop_act item f) by assumption.
    destruct (fs !! f) as [t|]; [apply IH|reflexivity].
  - rewrite !fixer_loop_skip by exact Hact. apply IH.
Qed.

(** The loop writes only where it has read: it keeps the set of files, and
    the files no acting item names keep their text. *)
Lemma fixer_loop_frame (plan : list plan_item) :
  forall changes fs,
    (forall g, is_Some (snd (fixer_loop plan changes fs) !! g)
               <-> is_Some (fs !! g))
    /\ (forall g,
          (forall item, In item plan -> acts_on item = true ->
             file item <> Some g) ->
          snd (fixer_loop plan changes fs) !! g = fs !! g).
Proof.
  induction plan as [|item plan IH]; intros changes fs.
  - split; reflexivity.
  - destruct (acts_on item) eqn:Hact.
    + assert (Hf : exists f, file item = Some f).
      { unfold acts_on in Hact. destruct (file item) as [f|]; [|discriminate].
        now exists f. }
      destruct Hf as [f Hf].
      rewrite (fixer_loop_act item f) by assumption.
      destruct (fs !! f) as [t|] eqn:Ht; [|split; reflexivity].
      destruct (IH (changes ++ [change_of item])
                  (<[f := apply_action (action item) t]> fs)) as [IH1 IH2].
      split.
      * intros g. rewrite IH1. destruct (decide (f = g)) as [<-|Hne].
        -- rewrite lookup_insert_eq, Ht. split; eauto.
        -- now rewrite lookup_insert_ne.
      * intros g Hg. rewrite IH2.
        -- apply lookup_insert_ne. intros <-.
           apply (Hg item); [now left|exact Hact|exact Hf].
        -- intros item' Hin. apply Hg. now right.
    + rewrite fixer_loop_skip by exact Hact.
      destruct (IH changes fs) as [IH1 IH2]. split; [exact IH1|].
      intros g Hg. apply IH2. intros item' Hin. apply Hg. now right.
Qed.

Lemma acts_on_file (item : plan_item) :
  acts_on item = true -> exists f, file item = Some f /\ truthy f = true.
Proof.
  unfold acts_on. destruct (file item) as [f|]; [|discriminate].
  intros H. apply andb_prop in H as [H _]. now exists f.
Qed.

Lemma fixer_loop_succeeds (plan : list plan_item) :
  forall changes fs,
    (forall item f, In item plan -> acts_on item = true ->
       file item = Some f -> is_Some (fs !! f)) ->
    fst (fixer_loop plan changes fs)
    = Some (changes ++ List.map change_of (List.filter acts_on plan)).
Proof.
  induction plan as [|item plan IH]; intros changes fs Hread.
  - simpl. now rewrite List.app_nil_r.
  - cbn [List.filter]. destruct (acts_on item) eqn:Hact.
    + destruct (acts_on_file item Hact) as (f & Hf & _).
      rewrite (fixer_loop_act item f) by assumption.
      destruct (Hread item f (or_introl eq_refl) Hact Hf) as [t Ht].
      rewrite Ht, IH.
      * cbn [List.map]. now rewrite <- List.app_assoc.
      * intros item' g Hin Hact' Hg.
        destruct (decide (f = g)) as [<-|Hne].
        -- rewrite lookup_insert_eq. eauto.
        -- rewrite lookup_insert_ne by exact Hne.
           apply (Hread item'); [now right|exact Hact'|exact Hg].
    + rewrite fixer_loop_skip by exact Hact. apply IH.
      intros item' g Hin. apply Hread. now right.
Qed.

Lemma fixer_loop_readable (plan : list plan_item) :
  forall changes fs,
    is_Some (fst (fixer_loop plan changes fs)) ->
    forall item f, In item plan -> acts_on item = true ->
      file item = Some f -> is_Some (fs !! f).
Proof.
  induction plan as [|item plan IH]; intros changes fs Hok item' g Hin;
    [destruct Hin|].
  destruct (acts_on item) eqn:Hact.
  - destruct (acts_on_file item Hact) as (f & Hf & _).
    rewrite (fixer_loop_act item f) in Hok by assumption.
    destruct (fs !! f) as [t|] eqn:Ht;
      [|destruct Hok as [? Hok]; discriminate Hok].
    destruct Hin as [<-|Hin].
    + intros _ Hg. assert (g = f) by congruence. subst g. eauto.
    + intros Hact' Hg.
      pose proof (IH _ _ Hok item' g Hin Hact' Hg) as Hs.
      destruct (decide (f = g)) as [<-|Hne]; [eauto|].
      now rewrite lookup_insert_ne in Hs.
  - rewrite fixer_loop_skip in Hok by exact Hact.
    destruct Hin as [<-|Hin]; [congruence|].
    now apply (IH _ _ Hok).
Qed.

(** The fixer with the refusals of the operating system. *)

Lemma fixer_loop_checked_skip (can_write : str -> bool)
    (item : plan_item) (rest : list plan_item)
    (changes : list change) (fs : FS) :
  acts_on item = false ->
  fixer_loop_checked can_write (item :: rest) changes fs
  = fixer_loop_checked can_write rest changes fs.
Proof.
  destruct item as [[f|] a]; unfold acts_on;
    cbn [fixer_loop_checked file action]; [|reflexivity].
  destruct (truthy f); [|reflexivity]. cbn [andb].
  intros H. apply orb_false_elim in H as [-> ->]. reflexivity.
Qed.

Lemma fixer_loop_checked_act (can_write : str -> bool)
    (item : plan_item) (f : str) (rest : list plan_item)
    (changes : list change) (fs : FS) :
  acts_on item = true -> file item = Some f ->
  fixer_loop_checked can_write (item :: rest) changes fs
  = match fs !! f with
    | Some t =>
        if can_write f
        then fixer_loop_checked can_write rest (changes ++ [change_of item])
               (<[f := apply_action (action item) t]> fs)
        else (None, fs)
    | None => (None, fs)
    end.
Proof.
  destruct item as [fo a]. unfold acts_on, change_of, apply_action.
  cbn [fixer_loop_checked file action]. intros Hact ->. cbn [default] in *.
  destruct (truthy f); [|discriminate]. cbn [andb] in *.
  unfold mbind, M_bind, read_file, write_file_checked, write_file.
  destruct (str_eqb a FIX_EVAL) eqn:Ha.
  - destruct (fs !! f); [|reflexivity]. now destruct (can_write f).
  - cbn [orb] in Hact. rewrite Hact.
    destruct (fs !! f); [|reflexivity]. now destruct (can_write f).
Qed.

(** Where every write goes through, the two loops agree. *)
Lemma fixer_loop_checked_eq (can_write : str -> bool)
    (plan : list plan_item) :
  forall changes fs,
    (forall item f, In item plan -> acts_on item = true ->
       file item = Some f -> can_write f = true) ->
    fixer_loop_checked can_write plan changes fs
    = fixer_loop plan changes fs.
Proof.
  induction plan as [|item plan IH]; intros changes fs Hw; [reflexivity|].
  destruct (acts_on item) eqn:Hact.
  - destruct (acts_on_file item Hact) as (f & Hf & _).
    rewrite (fixer_loop_checked_act can_write item f),
      (fixer_loop_act item f) by assumption.
    rewrite (Hw item f (or_introl eq_refl) Hact Hf).
    destruct (fs !! f) as [t|]; [|reflexivity].
    apply IH. intros item' g Hin. apply Hw. now right.
  - rewrite fixer_loop_checked_skip, fixer_loop_skip by exact Hact.
    apply IH. intros item' g Hin. apply Hw. now right.
Qed.

Lemma fixer_loop_checked_returns (can_write : str -> bool)
    (plan : list plan_item) :
  forall changes fs,
    is_Some (fst (fixer_loop_checked can_write plan changes fs)) ->
    forall item f, In item plan -> acts_on item = true ->
      file item = Some f -> is_Some (fs !! f) /\ can_write f = true.
Proof.
  induction plan as [|item plan IH]; intros changes fs Hok item' g Hin;
    [destruct Hin|].
  destruct (acts_on item) eqn:Hact.
  - destruct (acts_on_file item Hact) as (f & Hf & _).
    rewrite (fixer_loop_checked_act can_write item f) in Hok by assumption.
    destruct (fs !! f) as [t|] eqn:Ht;
      [|destruct Hok as [? Hok]; discriminate Hok].
    destruct (can_write f) eqn:Hw;
      [|destruct Hok as [? Hok]; discriminate Hok].
    destruct Hin as [<-|Hin].
    + intros _ Hg. assert (g = f) by congruence. subst g. eauto.
    + intros Hact' Hg.
      destruct (IH _ _ Hok item' g Hin Hact' Hg) as [Hs Hwg].
      split; [|exact Hwg].
      destruct (decide (f = g)) as [<-|Hne]; [eauto|].
      now rewrite lookup_insert_ne in Hs.
  - rewrite fixer_loop_checked_skip in Hok by exact Hact.
    destruct Hin as [<-|Hin]; [congruence|].
    now apply (IH _ _ Hok).
Qed.

(** X5.  With the writes the operating system may refuse, the fixer returns
    exactly when every file its acting items name can be read and written,
    and then with one change record for each acting item, in the order of
    the plan; an item without a file (as [investigate_test_failure]), with
    an empty path or with another action gets no record. *)
Theorem fixer_returns_iff_readable
    (can_write : str -> bool)
    (repo_path : str) (plan : list plan_item) (fs : FS) :
  (is_Some (fst (BugFixerAgent_run_checked can_write repo_path plan fs))
   <-> forall item f, In item plan -> acts_on item = true ->
         file item = Some f -> is_Some (fs !! f) /\ can_write f = true)
  /\ (forall changes,
        fst (BugFixerAgent_run_checked can_write repo_path plan fs)
        = Some changes ->
        changes = List.map change_of (List.filter acts_on plan)).
Proof.
  unfold BugFixerAgent_run_checked.
  assert (Hif : (forall item f, In item plan -> acts_on item = true ->
                   file item = Some f ->
                   is_Some (fs !! f) /\ can_write f = true) ->
                fst (fixer_loop_checked can_write plan [] fs)
                = Some (List.map change_of (List.filter acts_on plan))).
  { intros H. rewrite fixer_loop_checked_eq.
    - rewrite fixer_loop_succeeds; [reflexivity|].
      intros item f Hin Hact Hf. now apply (H item f).
    - intros item f Hin Hact Hf. now apply (H item f). }
  split; [split|].
  - apply fixer_loop_checked_returns.
  - intros H. rewrite (Hif H). eauto.
  - intros changes Hrun.
    assert (Hok : is_Some (fst (fixer_loop_checked can_write plan [] fs)))
      by eauto.
    rewrite (Hif (fixer_loop_checked_returns can_write plan [] fs Hok))
      in Hrun.
    congruence.
Qed.

(** X6.  Whether it returns or raises, the fixer neither creates nor removes
    a file, and it leaves every file alone that no acting item of the plan
    names. *)
Theorem fixer_frame (repo_path : str) (plan : list plan_item) (fs : FS) :
  (forall g,
     is_Some (snd (BugFixerAgent_run repo_path plan fs) !! g)
     <-> is_Some (fs !! g))
  /\ (forall g,
        (forall item, In item plan -> acts_on item = true ->
           file item <> Some g) ->
        snd (BugFixerAgent_run repo_path plan fs) !! g = fs !! g).
Proof. apply fixer_loop_frame. Qed.

(** X7.  A plan in two parts runs as the first part and then, from the files
    it leaves, the second; the change records follow one another.  When the
    first part raises, the second does not run. *)
Theorem fixer_sequential
    (repo_path : str) (p1 p2 : list plan_item) (fs : FS) :
  BugFixerAgent_run repo_path (p1 ++ p2) fs
  = match BugFixerAgent_run repo_path p1 fs with
    | (Some changes1, fs1) =>
        match BugFixerAgent_run repo_path p2 fs1 with
        | (Some changes2, fs2) => (Some (changes1 ++ changes2), fs2)
        | (None, fs2) => (None, fs2)
        end
    | (None, fs1) => (None, fs1)
    end.
Proof.
  unfold BugFixerAgent_run. rewrite fixer_loop_app.
  destruct (fixer_loop p1 [] fs) as [[changes1|] fs1]; [|reflexivity].
  rewrite fixer_loop_changes.
  now destruct (fixer_loop p2 [] fs1) as [[changes2|] fs2].
Qed.

(** X8.  The fixer is not transactional: when an acting item names a file
    that cannot be read, the run raises there and the files keep what the
    items before it wrote. *)
Theorem fixer_keeps_earlier_writes
    (repo_path : str) (p1 p2 : list plan_item) (item : plan_item)
    (g : str) (fs fs1 : FS) (changes : list change) :
  BugFixerAgent_run repo_path p1 fs = (Some changes, fs1) ->
  acts_on item = true -> file item = Some g -> fs !! g = None ->
  BugFixerAgent_run repo_path (p1 ++ item :: p2) fs = (None, fs1).
Proof.
  unfold BugFixerAgent_run. intros Hrun Hact Hfile Hg.
  rewrite fixer_loop_app, Hrun, (fixer_loop_act item g) by assumption.
  destruct (fixer_loop_frame p1 [] fs) as [Hdom _].
  rewrite Hrun in Hdom. cbn [snd] in Hdom.
  destruct (fs1 !! g) as [t|] eqn:Hg1; [|reflexivity].
  assert (Hs : is_Some (fs !! g)) by (apply Hdom; eauto).
  rewrite Hg in Hs. now destruct Hs.
Qed.

Lemma fixer_keeps_earlier_writes_witness :
  BugFixerAgent_run (py "demo_repo")
    ([PlanItem (Some Demo.path_a) FIX_EVAL]
     ++ PlanItem (Some (py "demo_repo/missing.py")) FIX_EVAL
        :: [PlanItem (Some Demo.path_c) REFACTOR_NOTE])
    Demo.repo
  = (None, <[Demo.path_a := fix_eval_text Demo.one_eval]> Demo.repo).
Proof.
  apply (fixer_keeps_earlier_writes (py "demo_repo")
           [PlanItem (Some Demo.path_a) FIX_EVAL]
           [PlanItem (Some Demo.path_c) REFACTOR_NOTE]
           (PlanItem (Some (py "demo_repo/missing.py")) FIX_EVAL)
           (py "demo_repo/missing.py") Demo.repo
           (<[Demo.path_a := fix_eval_text Demo.one_eval]> Demo.repo)
           [Change Demo.path_a (py "eval() replaced")]);
    reflexivity.
Defined.

(** ** The [refactor_note] action *)

Lemma fixer_loop_refactor_notes (f : str) (n : nat) :
  forall t changes fs,
    fs !! f = Some t -> truthy f = true ->
    fixer_loop (List.repeat (PlanItem (Some f) REFACTOR_NOTE) n) changes fs
    = (Some (changes
             ++ List.repeat (Change f (py "refactor note added")) n),
       <[f := t ++ List.concat (List.repeat REFACTOR_COMMENT n)]> fs).
Proof.
  induction n as [|n IH]; intros t changes fs Ht Hf.
  - cbn [List.repeat List.concat fixer_loop].
    rewrite !List.app_nil_r, insert_id by exact Ht. reflexivity.
  - cbn [List.repeat List.concat].
    rewrite (fixer_loop_act _ f), Ht;
      [|unfold acts_on; cbn [file action]; now rewrite Hf|reflexivity].
    rewrite (IH (t ++ REFACTOR_COMMENT)); [|apply lookup_insert_eq|exact Hf].
    rewrite insert_insert_eq, <- !List.app_assoc. reflexivity.
Qed.

(** X9.  [refactor_note] is not idempotent: applied [n] times to a readable
    file it appends the comment [n] times and returns [n] change records. *)
Theorem refactor_note_appends_each_time
    (repo_path f t : str) (n : nat) (fs : FS) :
  fs !! f = Some t -> truthy f = true ->
  BugFixerAgent_run repo_path
    (List.repeat (PlanItem (Some f) REFACTOR_NOTE) n) fs
  = (Some (List.repeat (Change f (py "refactor note added")) n),
     <[f := t ++ List.concat (List.repeat REFACTOR_COMMENT n)]> fs).
Proof.
  intros Ht Hf. unfold BugFixerAgent_run.
  now rewrite (fixer_loop_refactor_notes f n t) by assumption.
Qed.

Lemma refactor_note_appends_each_time_witness :
  BugFixerAgent_run (py "demo_repo")
    (List.repeat (PlanItem (Some Demo.path_a) REFACTOR_NOTE) 2) Demo.repo
  = (Some (List.repeat (Change Demo.path_a (py "refactor note added")) 2),
     <[Demo.path_a
       := Demo.one_eval ++ List.concat (List.repeat REFACTOR_COMMENT 2)]>
       Demo.repo).
Proof.
  apply (refactor_note_appends_each_time (py "demo_repo") Demo.path_a
           Demo.one_eval 2 Demo.repo); reflexivity.
Defined.

(** A pattern without the character [c] matches at the head of [s] followed
    by [c] only if it matches at the head of [s]. *)
Lemma starts_with_before (p s r : str) (c : N) :
  p <> [] -> ~ In c p ->
  starts_with p (s ++ c :: r) = starts_with p s.
Proof.
  revert p. induction s as [|b s IH]; intros p Hp Hc.
  - destruct p as [|a p]; [congruence|]. simpl.
    destruct (N.eqb_spec a c) as [->|_]; [|reflexivity].
    exfalso. apply Hc. now left.
  - destruct p as [|a p]; [congruence|]. cbn [List.app starts_with].
    destruct p as [|a' p]; [reflexivity|].
    rewrite (IH (a' :: p)); [reflexivity|discriminate|].
    intros H. apply Hc. now right.
Qed.

Lemma occurrences_app_before (p s r : str) (c : N) :
  p <> [] -> ~ In c p ->
  occurrences p (s ++ c :: r) = occurrences p s + occurrences p (c :: r).
Proof.
  intros Hp Hc. induction s as [|b s IH]; [reflexivity|].
  change (occurrences p ((b :: s) ++ c :: r))
    with ((if starts_with p ((b :: s) ++ c :: r) then 1 else 0)
          + occurrences p (s ++ c :: r)).
  change (occurrences p (b :: s))
    with ((if starts_with p (b :: s) then 1 else 0) + occurrences p s).
  rewrite starts_with_before by assumption. rewrite IH. lia.
Qed.

Lemma EVAL_no_NEWLINE : ~ In NEWLINE EVAL.
Proof. simpl. intuition discriminate. Qed.

(** X10.  The comment of [refactor_note] neither adds nor hides an
    ["eval("], and the two actions commute: the substitution of [fix_eval]
    on a text with the comment appended is the substituted text with the
    comment appended. *)
Theorem refactor_comment_commutes (t : str) :
  occurrences EVAL (t ++ REFACTOR_COMMENT) = occurrences EVAL t
  /\ contains EVAL (t ++ REFACTOR_COMMENT) = contains EVAL t
  /\ fix_eval_text (t ++ REFACTOR_COMMENT)
     = fix_eval_text t ++ REFACTOR_COMMENT.
Proof.
  assert (Hocc : occurrences EVAL (t ++ REFACTOR_COMMENT)
                 = occurrences EVAL t).
  { unfold REFACTOR_COMMENT.
    rewrite occurrences_app_before;
      [|discriminate|apply EVAL_no_NEWLINE].
    change (occurrences EVAL (NEWLINE :: _)) with 0. lia. }
  split; [exact Hocc|]. split.
  - pose proof (contains_occurrences EVAL t ltac:(discriminate)) as H1.
    pose proof (contains_occurrences EVAL (t ++ REFACTOR_COMMENT)
                  ltac:(discriminate)) as H2.
    rewrite Hocc in H2.
    destruct (contains EVAL t), (contains EVAL (t ++ REFACTOR_COMMENT));
      try reflexivity.
    + apply (proj2 H2), (proj1 H1). reflexivity.
    + symmetry. apply (proj2 H1), (proj1 H2). reflexivity.
  - clear Hocc.
    induction t as [|r IH|c r Hmiss IH] using fix_eval_scan_ind.
    + reflexivity.
    + rewrite <- List.app_assoc, !fix_eval_text_hit, IH.
      now rewrite <- List.app_assoc.
    + cbn [List.app]. rewrite fix_eval_text_miss.
      * rewrite (fix_eval_text_miss c r) by exact Hmiss. now rewrite IH.
      * change (c :: r ++ REFACTOR_COMMENT)
          with ((c :: r) ++ NEWLINE :: List.tl REFACTOR_COMMENT).
        rewrite starts_with_before;
          [exact Hmiss|discriminate|apply EVAL_no_NEWLINE].
Qed.

(** ** From the report of the analyser to the files the fixer leaves *)

Section DictEntries.

Context {V : Type}.
Implicit Types (d : list (str * V)) (k : str) (v : V).

Lemma dict_get_None k d : ~ In k (dict_keys d) -> dict_get k d = None.
Proof.
  induction d as [|[k' v'] d IH]; simpl; intros Hk; [reflexivity|].
  rewrite (proj2 (str_eqb_false k' k)) by tauto. apply IH. tauto.
Qed.

Lemma dict_get_In k v d :
  List.NoDup (dict_keys d) -> In (k, v) d -> dict_get k d = Some v.
Proof.
  induction d as [|[k' v'] d IH]; simpl; intros Hnd Hin; [destruct Hin|].
  apply List.NoDup_cons_iff in Hnd as [Hk' Hnd].
  destruct Hin as [Heq|Hin].
  - inversion Heq; subst. now rewrite str_eqb_refl.
  - rewrite (proj2 (str_eqb_false k' k)); [now apply IH|].
    intros ->. apply Hk'. now apply (in_map fst _ (k, v)).
Qed.

Lemma dict_set_In k v k' v' d :
  In (k', v') (dict_set k v d) -> (k' = k /\ v' = v) \/ In (k', v') d.
Proof.
  induction d as [|[k0 v0] d IH]; simpl.
  - intros [H|[]]. inversion H. now left.
  - destruct (str_eqb k0 k) eqn:E.
    + apply str_eqb_true in E. subst k0.
      intros [H|H]; [inversion H; now left|right; now right].
    + intros [H|H]; [right; now left|].
      destruct (IH H) as [?|?]; [now left|right; now right].
Qed.

Lemma dict_set_NoDup k v d :
  List.NoDup (dict_keys d) -> List.NoDup (dict_keys (dict_set k v d)).
Proof.
  induction d as [|[k0 v0] d IH]; simpl; intros Hnd.
  - repeat constructor. intros [].
  - apply List.NoDup_cons_iff in Hnd as [Hk0 Hnd].
    destruct (str_eqb k0 k) eqn:E; simpl.
    + now constructor.
    + apply str_eqb_false in E. constructor; [|now apply IH].
      intros Hin. apply in_map_iff in Hin as ([k1 v1] & Hk1 & Hin).
      simpl in Hk1. subst k1.
      apply dict_set_In in Hin as [[-> _]|Hin]; [congruence|].
      apply Hk0. now apply (in_map fst _ (k0, v1)).
Qed.

(** The dictionary a loop [for f in files: d[f] = entry(f)] builds from
    nothing has each key once, and each value is the entry of its key. *)
Lemma dict_loop_entries (entry : str -> V) (files : list str) :
  forall d,
    List.NoDup (dict_keys d) ->
    (forall k v, In (k, v) d -> v = entry k) ->
    List.NoDup
      (dict_keys (fold_left (fun d f => dict_set f (entry f) d) files d))
    /\ (forall k v,
          In (k, v) (fold_left (fun d f => dict_set f (entry f) d) files d)
          -> v = entry k).
Proof.
  induction files as [|f files IH]; intros d Hnd Hd; [now split|].
  cbn [fold_left]. apply IH.
  - now apply dict_set_NoDup.
  - intros k v Hin. apply dict_set_In in Hin as [[-> ->]|Hin];
      [reflexivity|now apply Hd].
Qed.

End DictEntries.

Lemma analyze_text_types
    (parse : str -> option ast)
    (get_source_segment : str -> position -> option str) (text : str) :
  forall i, In i (analyze_text parse get_source_segment text) ->
    type i = SECURITY \/ type i = COMPLEXITY.
Proof.
  intros i. rewrite analyze_text_eq, in_app_iff. intros [Hi|Hi].
  - destruct (contains EVAL text); [|destruct Hi].
    destruct Hi as [<-|[]]. now left.
  - destruct (parse text) as [tree|]; [|destruct Hi].
    apply in_flat_map in Hi as (node & _ & Hi). unfold function_issue in Hi.
    destruct (kind_of node) as [| |name pos| |]; try destruct Hi.
    destruct (MAX_LINES <? segment_lines get_source_segment text pos);
      [|destruct Hi].
    destruct Hi as [<-|[]]. now right.
Qed.

Lemma remediate_app (a b : list issue) (t : str) :
  remediate (a ++ b) t = remediate b (remediate a t).
Proof. unfold remediate. apply fold_left_app. Qed.

Lemma remediate_complexity (iss : list issue) :
  forall t,
    Forall (fun i => type i = COMPLEXITY) iss ->
    remediate iss t
    = t ++ List.concat (List.repeat REFACTOR_COMMENT (length iss)).
Proof.
  induction iss as [|i iss IH]; intros t Hty.
  - simpl. now rewrite List.app_nil_r.
  - inversion Hty as [|? ? Hi Hrest]; subst.
    unfold remediate in *. cbn [fold_left length List.repeat List.concat].
    rewrite IH by exact Hrest. unfold action_for, apply_action. rewrite Hi.
    change (str_eqb COMPLEXITY SECURITY) with false. cbn iota.
    change (str_eqb REFACTOR_NOTE FIX_EVAL) with false.
    change (str_eqb REFACTOR_NOTE REFACTOR_NOTE) with true. cbn iota.
    now rewrite <- List.app_assoc.
Qed.

Lemma function_issues_complexity
    (get_source_segment : str -> position -> option str)
    (text : str) (nodes : list ast) :
  Forall (fun i => type i = COMPLEXITY)
    (flat_map (function_issue get_source_segment text) nodes).
Proof.
  induction nodes as [|node nodes IH]; [constructor|].
  simpl. apply Forall_app. split; [|exact IH]. unfold function_issue.
  destruct (kind_of node) as [| |name pos| |]; try constructor.
  destruct (MAX_LINES <? segment_lines get_source_segment text pos);
    repeat constructor.
Qed.

(** The text the actions for the issues of a file leave: the substitution
    if the text held ["eval("], then one comment for each long function. *)
Lemma remediate_analyze_text
    (parse : str -> option ast)
    (get_source_segment : str -> position -> option str) (text : str) :
  remediate (analyze_text parse get_source_segment text) text
  = (if contains EVAL text then fix_eval_text text else text)
    ++ List.concat
         (List.repeat REFACTOR_COMMENT
            (length
               (List.filter (has_type COMPLEXITY)
                  (analyze_text parse get_source_segment text)))).
Proof.
  rewrite analyze_text_eq, remediate_app, List.filter_app, List.length_app.
  set (cpx := match parse text with
              | Some tree =>
                  flat_map (function_issue get_source_segment text)
                    (walk tree)
              | None => []
              end).
  assert (Hcpx : Forall (fun i => type i = COMPLEXITY) cpx).
  { subst cpx. destruct (parse text); [|constructor].
    apply function_issues_complexity. }
  rewrite remediate_complexity by exact Hcpx.
  assert (Hlen : length (List.filter (has_type COMPLEXITY) cpx)
                 = length cpx).
  { clear -Hcpx. induction Hcpx as [|i l Hi _ IH]; [reflexivity|].
    simpl. unfold has_type at 1. rewrite Hi.
    change (str_eqb COMPLEXITY COMPLEXITY) with true. simpl. now rewrite IH. }
  rewrite Hlen. now destruct (contains EVAL text).
Qed.

Lemma acts_on_action_for (f : str) (i : issue) :
  truthy f = true -> acts_on (PlanItem (Some f) (action_for i)) = true.
Proof.
  intros Hf. unfold acts_on, action_for. cbn [file action]. rewrite Hf.
  now destruct (str_eqb (type i) SECURITY).
Qed.

(** The items the planner has for one file, run by the fixer. *)
Lemma fixer_loop_file (f : str) (iss : list issue) :
  forall t rest changes fs,
    fs !! f = Some t -> truthy f = true ->
    fixer_loop
      (List.map (fun i => PlanItem (Some f) (action_for i)) iss ++ rest)
      changes fs
    = fixer_loop rest
        (changes
         ++ List.map (fun i => change_of (PlanItem (Some f) (action_for i)))
              iss)
        (<[f := remediate iss t]> fs).
Proof.
  induction iss as [|i iss IH]; intros t rest changes fs Ht Hf.
  - cbn [List.map List.app remediate fold_left].
    now rewrite List.app_nil_r, insert_id by exact Ht.
  - cbn [List.map List.app].
    rewrite (fixer_loop_act _ f), Ht;
      [|now apply acts_on_action_for|reflexivity].
    rewrite (IH (apply_action (action_for i) t));
      [|apply lookup_insert_eq|exact Hf].
    rewrite insert_insert_eq, <- List.app_assoc. reflexivity.
Qed.

(** The items the planner has for a report, run by the fixer. *)
Lemma fixer_loop_entries (entries : list (str * list issue)) :
  forall changes fs,
    List.NoDup (dict_keys entries) ->
    (forall f iss, In (f, iss) entries ->
       is_Some (fs !! f) /\ truthy f = true) ->
    exists fs',
      fixer_loop
        (flat_map
           (fun entry =>
              List.map (fun i => PlanItem (Some (fst entry)) (action_for i))
                (snd entry))
           entries)
        changes fs
      = (Some (changes
               ++ flat_map
                    (fun entry =>
                       List.map
                         (fun i =>
                            change_of
                              (PlanItem (Some (fst entry)) (action_for i)))
                         (snd entry))
                    entries),
         fs')
      /\ (forall g,
            fs' !! g
            = match dict_get g entries with
              | Some iss => remediate iss <$> fs !! g
              | None => fs !! g
              end).
Proof.
  induction entries as [|[f iss] entries IH]; intros changes fs Hnd Hread.
  - exists fs. split; [simpl; now rewrite List.app_nil_r|reflexivity].
  - cbn [dict_keys List.map fst] in Hnd.
    apply List.NoDup_cons_iff in Hnd as [Hf Hnd].
    destruct (Hread f iss (or_introl eq_refl)) as [[t Ht] Htruthy].
    cbn [flat_map fst snd]. rewrite (fixer_loop_file f iss t) by assumption.
    destruct (IH (changes
                  ++ List.map
                       (fun i => change_of (PlanItem (Some f) (action_for i)))
                       iss)
                (<[f := remediate iss t]> fs) Hnd) as (fs' & Hrun & Hfs').
    { intros g iss' Hin. destruct (Hread g iss' (or_intror Hin)) as [Hs Hg].
      split; [|exact Hg].
      destruct (decide (f = g)) as [<-|Hne];
        [rewrite lookup_insert_eq; eauto|now rewrite lookup_insert_ne]. }
    exists fs'. split; [now rewrite Hrun, <- List.app_assoc|].
    intros g. rewrite Hfs'. cbn [dict_get].
    destruct (str_eqb f g) eqn:E.
    + apply str_eqb_true in E. subst g.
      rewrite dict_get_None by exact Hf.
      now rewrite lookup_insert_eq, Ht.
    + apply str_eqb_false in E. rewrite lookup_insert_ne by exact E.
      reflexivity.
Qed.

(** What a returned report of the analyser is. *)
Lemma StaticAnalyzerAgent_run_Some
    (parse : str -> option ast)
    (get_source_segment : str -> position -> option str)
    (files : list str) (fs : FS) (issues : list (str * list issue)) :
  fst (StaticAnalyzerAgent_run parse get_source_segment files fs)
  = Some issues ->
  (forall f, In f files -> is_Some (fs !! f))
  /\ issues
     = fold_left
         (fun d f =>
            dict_set f
              (analyze_text parse get_source_segment (default [] (fs !! f)))
              d)
         files [].
Proof.
  intros Hrun.
  assert (Hread : forall f, In f files -> is_Some (fs !! f)).
  { intros f Hin. destruct (fs !! f) as [t|] eqn:Hf; [eauto|].
    unfold StaticAnalyzerAgent_run in Hrun.
    rewrite (static_loop_raises parse get_source_segment fs files [] f)
      in Hrun by assumption.
    discriminate Hrun. }
  split; [exact Hread|].
  unfold StaticAnalyzerAgent_run in Hrun.
  rewrite static_loop_eq in Hrun by exact Hread. simpl in Hrun. congruence.
Qed.

Lemma analysis_entries
    (parse : str -> option ast)
    (get_source_segment : str -> position -> option str)
    (files : list str) (fs : FS) :
  (forall f, In f files -> is_Some (fs !! f)) ->
  let issues :=
    fold_left
      (fun d f =>
         dict_set f
           (analyze_text parse get_source_segment (default [] (fs !! f))) d)
      files [] in
  List.NoDup (dict_keys issues)
  /\ (forall f iss, In (f, iss) issues ->
        In f files
        /\ exists t, fs !! f = Some t
                     /\ iss = analyze_text parse get_source_segment t).
Proof.
  intros Hread issues.
  destruct (dict_loop_entries
              (fun f => analyze_text parse get_source_segment
                          (default [] (fs !! f)))
              files [] (List.NoDup_nil _)) as [Hnd Hval]; [intros ? ? []|].
  fold issues in Hnd, Hval. split; [exact Hnd|].
  intros f iss Hin.
  assert (Hf : In f files).
  { destruct (in_dec (fun a b : str => decide (a = b)) f files)
      as [Hf|Hf]; [exact Hf|].
    pose proof (dict_get_In f iss issues Hnd Hin) as Hget.
    unfold issues in Hget.
    rewrite dict_loop_get_other in Hget by exact Hf. discriminate Hget. }
  split; [exact Hf|]. destruct (Hread f Hf) as [t Ht]. exists t.
  split; [exact Ht|]. rewrite (Hval f iss Hin), Ht. reflexivity.
Qed.

Lemma action_for_complexity (iss : list issue) :
  Forall (fun i => type i = COMPLEXITY) iss ->
  List.map action_for iss = List.repeat REFACTOR_NOTE (length iss)
  /\ length (List.filter (has_type COMPLEXITY) iss) = length iss.
Proof.
  induction 1 as [|i iss Hi _ [IH1 IH2]]; [split; reflexivity|].
  cbn [List.map length List.repeat List.filter].
  unfold action_for at 1, has_type at 1. rewrite Hi.
  change (str_eqb COMPLEXITY SECURITY) with false.
  change (str_eqb COMPLEXITY COMPLEXITY) with true. cbn iota.
  split; [now rewrite IH1|simpl; now rewrite IH2].
Qed.

(** X11.  On a report the analyser returned, the planner has one action for
    each issue with no assumption on the issues: for each file at most one
    [fix_eval], first, present when the text holds ["eval("], and then one
    [refactor_note] for each complexity issue. *)
Theorem plan_of_analysis
    (parse : str -> option ast)
    (get_source_segment : str -> position -> option str)
    (files : list str) (fs : FS) (issues : list (str * list issue))
    (tests : test_result) :
  fst (StaticAnalyzerAgent_run parse get_source_segment files fs)
  = Some issues ->
  FixPlannerAgent_run issues tests
  = flat_map
      (fun entry =>
         List.map (fun i => PlanItem (Some (fst entry)) (action_for i))
           (snd entry))
      issues
    ++ (if success_of tests then [] else [PlanItem None INVESTIGATE])
  /\ (forall f iss,
        In (f, iss) issues ->
        exists t,
          fs !! f = Some t
          /\ List.map action_for iss
             = (if contains EVAL t then [FIX_EVAL] else [])
               ++ List.repeat REFACTOR_NOTE
                    (length (List.filter (has_type COMPLEXITY) iss))).
Proof.
  intros Hrun.
  destruct (StaticAnalyzerAgent_run_Some _ _ _ _ _ Hrun) as [Hread ->].
  destruct (analysis_entries parse get_source_segment files fs Hread)
    as [Hnd Hent].
  split.
  - unfold FixPlannerAgent_run. rewrite plan_loop_eq.
    + destruct (success_of tests); simpl; [now rewrite List.app_nil_r|].
      reflexivity.
    + intros f iss i Hin Hi.
      destruct (Hent f iss Hin) as (_ & t & _ & ->).
      apply (analyze_text_types _ _ _ _ Hi).
  - intros f iss Hin. destruct (Hent f iss Hin) as (_ & t & Ht & ->).
    exists t. split; [exact Ht|].
    rewrite analyze_text_eq, List.map_app, List.filter_app, List.length_app.
    set (cpx := match parse t with
                | Some tree =>
                    flat_map (function_issue get_source_segment t)
                      (walk tree)
                | None => []
                end).
    assert (Hcpx : Forall (fun i => type i = COMPLEXITY) cpx).
    { subst cpx. destruct (parse t); [|constructor].
      apply function_issues_complexity. }
    destruct (action_for_complexity cpx Hcpx) as [-> ->].
    now destruct (contains EVAL t).
Qed.

Lemma plan_of_analysis_witness :
  FixPlannerAgent_run
    [(Demo.path_a, [security_issue]); (Demo.path_b, []);
     (Demo.path_c, [complexity_issue (py "outer");
                    complexity_issue (py "second");
                    complexity_issue (py "inner")]);
     (Demo.path_d, [])]
    (CompileResult true [])
  = [PlanItem (Some Demo.path_a) FIX_EVAL;
     PlanItem (Some Demo.path_c) REFACTOR_NOTE;
     PlanItem (Some Demo.path_c) REFACTOR_NOTE;
     PlanItem (Some Demo.path_c) REFACTOR_NOTE].
Proof.
  apply (plan_of_analysis Demo.parse Demo.get_source_segment Demo.files
           Demo.repo
           [(Demo.path_a, [security_issue]); (Demo.path_b, []);
            (Demo.path_c, [complexity_issue (py "outer");
                           complexity_issue (py "second");
                           complexity_issue (py "inner")]);
            (Demo.path_d, [])]
           (CompileResult true [])).
  vm_compute. reflexivity.
Defined.

Lemma fixer_on_analysis
    (parse : str -> option ast)
    (get_source_segment : str -> position -> option str)
    (repo_path : str) (files : list str) (fs : FS) (tests : test_result) :
  (forall f, In f files -> is_Some (fs !! f) /\ truthy f = true) ->
  exists issues changes fs',
    StaticAnalyzerAgent_run parse get_source_segment files fs
    = (Some issues, fs)
    /\ BugFixerAgent_run repo_path (FixPlannerAgent_run issues tests) fs
       = (Some changes, fs')
    /\ length changes
       = list_sum (List.map (fun entry => length (snd entry)) issues)
    /\ (forall f t,
          In f files -> fs !! f = Some t ->
          fs' !! f
          = Some
              ((if contains EVAL t then fix_eval_text t else t)
               ++ List.concat
                    (List.repeat REFACTOR_COMMENT
                       (length
                          (List.filter (has_type COMPLEXITY)
                             (analyze_text parse get_source_segment t))))))
    /\ (forall g, ~ In g files -> fs' !! g = fs !! g).
Proof.
  intros Hfiles.
  assert (Hread : forall f, In f files -> is_Some (fs !! f))
    by (intros f Hf; now apply Hfiles).
  pose (entry := fun f => analyze_text parse get_source_segment
                            (default [] (fs !! f))).
  pose (issues := fold_left (fun d f => dict_set f (entry f) d) files []).
  destruct (analysis_entries parse get_source_segment files fs Hread)
    as [Hnd Hent]. fold entry in Hnd, Hent. fold issues in Hnd, Hent.
  destruct (fixer_loop_entries issues [] fs Hnd) as (fs' & Hfix & Hfs').
  { intros f iss Hin. apply Hfiles. now apply (Hent f iss). }
  exists issues. eexists. exists fs'.
  split; [unfold StaticAnalyzerAgent_run; now apply static_loop_eq|].
  split; [|split; [|split]].
  - unfold BugFixerAgent_run, FixPlannerAgent_run.
    rewrite plan_loop_eq.
    + cbn [List.app].
      change (fun entry0 : str * list issue =>
                List.map
                  (fun i =>
                     PlanItem (Some (fst entry0))
                       (if str_eqb (type i) SECURITY then FIX_EVAL
                        else REFACTOR_NOTE))
                  (snd entry0))
        with (fun entry0 : str * list issue =>
                List.map
                  (fun i => PlanItem (Some (fst entry0)) (action_for i))
                  (snd entry0)).
      destruct (success_of tests); cbn [negb].
      * exact Hfix.
      * rewrite fixer_loop_app, Hfix. reflexivity.
    + intros f iss i Hin Hi.
      destruct (Hent f iss Hin) as (_ & t & _ & ->).
      apply (analyze_text_types _ _ _ _ Hi).
  - cbn [List.app]. clear.
    induction issues as [|[f iss] l IH]; [reflexivity|].
    cbn [flat_map List.map list_sum fst snd].
    now rewrite List.length_app, List.length_map, IH.
  - intros f t Hin Ht. rewrite Hfs'.
    unfold issues. rewrite (dict_loop_get entry) by exact Hin.
    unfold entry. rewrite Ht. cbn [default fmap option_fmap option_map].
    now rewrite remediate_analyze_text.
  - intros g Hg. rewrite Hfs'. unfold issues.
    now rewrite dict_loop_get_other by exact Hg.
Qed.

(** X12.  Analyser, planner and fixer in a row, on files that can be read:
    the fixer returns, with one change record for each issue; each analysed
    file holds the substituted text if its text held ["eval("], its own text
    if not, followed by one comment for each of its complexity issues; every
    other file is as it was.  A file without issues keeps its text. *)
Theorem remediation_of_analysis
    (parse : str -> option ast)
    (get_source_segment : str -> position -> option str)
    (repo_path : str) (files : list str) (fs : FS) (tests : test_result) :
  (forall f, In f files -> is_Some (fs !! f) /\ truthy f = true) ->
  exists issues changes fs',
    StaticAnalyzerAgent_run parse get_source_segment files fs
    = (Some issues, fs)
    /\ BugFixerAgent_run repo_path (FixPlannerAgent_run issues tests) fs
       = (Some changes, fs')
    /\ length changes
       = list_sum (List.map (fun entry => length (snd entry)) issues)
    /\ (forall f t,
          In f files -> fs !! f = Some t ->
          fs' !! f
          = Some
              ((if contains EVAL t then fix_eval_text t else t)
               ++ List.concat
                    (List.repeat REFACTOR_COMMENT
                       (length
                          (List.filter (has_type COMPLEXITY)
                             (analyze_text parse get_source_segment t))))))
    /\ (forall g, ~ In g files -> fs' !! g = fs !! g).
Proof. apply fixer_on_analysis. Qed.

Lemma remediation_of_analysis_witness :
  exists issues changes fs',
    StaticAnalyzerAgent_run Demo.parse Demo.get_source_segment Demo.files
      Demo.repo
    = (Some issues, Demo.repo)
    /\ BugFixerAgent_run (py "demo_repo")
         (FixPlannerAgent_run issues (CompileResult true [])) Demo.repo
       = (Some changes, fs')
    /\ length changes
       = list_sum (List.map (fun entry => length (snd entry)) issues)
    /\ (forall f t,
          In f Demo.files -> Demo.repo !! f = Some t ->
          fs' !! f
          = Some
              ((if contains EVAL t then fix_eval_text t else t)
               ++ List.concat
                    (List.repeat REFACTOR_COMMENT
                       (length
                          (List.filter (has_type COMPLEXITY)
                             (analyze_text Demo.parse
                                Demo.get_source_segment t))))))
    /\ (forall g, ~ In g Demo.files -> fs' !! g = Demo.repo !! g).
Proof.
  apply (remediation_of_analysis Demo.parse Demo.get_source_segment
           (py "demo_repo") Demo.files Demo.repo (CompileResult true [])).
  intros f [<-|[<-|[<-|[<-|[]]]]]; split; solve [eexists; reflexivity
                                                 | reflexivity].
Defined.

(** ** The analyser and unreadable files *)

Lemma readable_or_not (fs : FS) (files : list str) :
  (forall f, In f files -> is_Some (fs !! f))
  \/ (exists f, In f files /\ fs !! f = None).
Proof.
  induction files as [|f files [IH|(g & Hg & Hnone)]].
  - left. intros f [].
  - destruct (fs !! f) as [t|] eqn:Hf.
    + left. intros g [<-|Hg]; [rewrite Hf; eauto|now apply IH].
    + right. exists f. split; [now left|exact Hf].
  - right. exists g. split; [now right|exact Hnone].
Qed.

(** X13.  The analyser reads outside its [try]: it raises exactly when one
    of the files cannot be read, while the mapper returns on the same
    files; neither writes a file. *)
Theorem analyzer_raises_iff_unreadable
    (parse : str -> option ast)
    (get_source_segment : str -> position -> option str)
    (files : list str) (fs : FS) :
  (fst (StaticAnalyzerAgent_run parse get_source_segment files fs) = None
   <-> exists f, In f files /\ fs !! f = None)
  /\ snd (StaticAnalyzerAgent_run parse get_source_segment files fs) = fs
  /\ is_Some (fst (DependencyMapperAgent_run parse files fs))
  /\ snd (DependencyMapperAgent_run parse files fs) = fs.
Proof.
  unfold StaticAnalyzerAgent_run, DependencyMapperAgent_run.
  rewrite dependency_loop_eq. cbn [fst snd].
  destruct (readable_or_not fs files) as [Hread|(f & Hf & Hnone)].
  - rewrite static_loop_eq by exact Hread. cbn [fst snd].
    split; [|split; [reflexivity|split; [eauto|reflexivity]]].
    split; [discriminate|]. intros (f & Hf & Hnone).
    destruct (Hread f Hf) as [t Ht]. congruence.
  - rewrite (static_loop_raises parse get_source_segment fs files [] f)
      by assumption.
    cbn [fst snd]. split; [|split; [reflexivity|split; [eauto|reflexivity]]].
    split; [intros _; now exists f|reflexivity].
Qed.

(** ** The syntax check of the test runner *)

(** X14.  Without a [tests] directory the test runner succeeds exactly when
    every listed file can be read and compiles; its error list names the
    files that fail, each once for each time it is listed, in the order of
    the listing. *)
Theorem syntax_check_success
    (subprocess_run : str -> str -> nat -> process_outcome)
    (tests_dir_exists : str -> bool)
    (list_source_files : str -> list str)
    (compile_error : str -> str -> option str)
    (read_error : str -> str) (repo_path : str) (fs : FS) :
  tests_dir_exists repo_path = false ->
  exists ok errors,
    TestRunnerAgent_run subprocess_run tests_dir_exists list_source_files
      compile_error read_error repo_path fs
    = (Some (CompileResult ok errors), fs)
    /\ (ok = true
        <-> forall f, In f (list_source_files repo_path) ->
              exists text,
                fs !! f = Some text /\ compile_error text f = None)
    /\ List.map fst errors
       = List.filter
           (fun f =>
              match fs !! f with
              | Some text =>
                  match compile_error text f with
                  | Some _ => true
                  | None => false
                  end
              | None => true
              end)
           (list_source_files repo_path).
Proof.
  intros Hno. unfold TestRunnerAgent_run. rewrite Hno.
  unfold mbind, M_bind. rewrite compile_loop_eq. cbn [List.app].
  eexists. eexists. split; [reflexivity|].
  induction (list_source_files repo_path) as [|f files [IH1 IH2]].
  - split; [|reflexivity]. split; [intros _ f []|reflexivity].
  - cbn [flat_map List.filter].
    destruct (fs !! f) as [text|] eqn:Hf;
      [destruct (compile_error text f) as [e|] eqn:He|].
    + split; [|simpl; now rewrite IH2].
      split; [discriminate|]. intros H.
      destruct (H f (or_introl eq_refl)) as (text' & Ht & Hc). congruence.
    + cbn [List.app]. split; [|exact IH2]. rewrite IH1. split.
      * intros H g [<-|Hg]; [exists text; now split|now apply H].
      * intros H g Hg. apply H. now right.
    + split; [|simpl; now rewrite IH2].
      split; [discriminate|]. intros H.
      destruct (H f (or_introl eq_refl)) as (text' & Ht & _). congruence.
Qed.

Lemma syntax_check_success_witness :
  exists ok errors,
    TestRunnerAgent_run Demo.subprocess_run Demo.tests_dir_exists
      Demo.list_source_files Demo.compile_error Demo.read_error
      (py "elsewhere") Demo.repo
    = (Some (CompileResult ok errors), Demo.repo)
    /\ (ok = true
        <-> forall f, In f (Demo.list_source_files (py "elsewhere")) ->
              exists text,
                Demo.repo !! f = Some text
                /\ Demo.compile_error text f = None)
    /\ List.map fst errors
       = List.filter
           (fun f =>
              match Demo.repo !! f with
              | Some text =>
                  match Demo.compile_error text f with
                  | Some _ => true
                  | None => false
                  end
              | None => true
              end)
           (Demo.list_source_files (py "elsewhere")).
Proof.
  apply (syntax_check_success Demo.subprocess_run Demo.tests_dir_exists
           Demo.list_source_files Demo.compile_error Demo.read_error
           (py "elsewhere") Demo.repo).
  reflexivity.
Defined.

(** ** The file inventory *)

Lemma contains_inside (p s l r : str) :
  contains p s = true -> contains p (l ++ s ++ r) = true.
Proof.
  rewrite !contains_spec. intros (l0 & r0 & ->).
  exists (l ++ l0), (r0 ++ r). now rewrite <- !List.app_assoc.
Qed.

(** X15.  [list_source_files] keeps, in the order of the enumeration, the
    entries whose suffix is one of [exts] and whose path does not hold
    [".git"] anywhere, so a file under [.github] is left out; and when the
    path of the root itself holds [".git"], no file at all is listed. *)
Theorem source_files_exclude_git
    (rglob : FS -> str -> list str) (suffix : str -> str)
    (fs : FS) (repo_path : str) (exts : list str) :
  (forall f,
     In f (source_files rglob suffix fs repo_path exts)
     <-> In f (rglob fs repo_path)
         /\ In (suffix f) exts
         /\ ~ (exists l r, f = l ++ GIT ++ r))
  /\ (contains GIT repo_path = true ->
      (forall f, In f (rglob fs repo_path) ->
         exists l r, f = l ++ repo_path ++ r) ->
      source_files rglob suffix fs repo_path exts = []).
Proof.
  unfold source_files, is_source_file. split.
  - intros f. rewrite List.filter_In, andb_true_iff, negb_true_iff.
    rewrite <- contains_spec, existsb_exists.
    split; intros (Hin & Hs & Hg); (split; [exact Hin|split]).
    + destruct Hs as (e & He & Heq). apply str_eqb_true in Heq. now subst e.
    + now rewrite Hg.
    + exists (suffix f). split; [exact Hs|apply str_eqb_refl].
    + now destruct (contains GIT f).
  - intros Hroot Hunder.
    induction (rglob fs repo_path) as [|f paths IH]; [reflexivity|].
    cbn [List.filter]. destruct (Hunder f (or_introl eq_refl)) as (l & r & ->).
    rewrite (contains_inside GIT repo_path l r Hroot), andb_false_r.
    apply IH. intros g Hg. apply Hunder. now right.
Qed.

Lemma source_files_exclude_git_witness :
  source_files (fun _ root => [root ++ py "/app.py"]) Sample.suffix
    Demo.repo (py "site.github.io") [PY_EXT] = [].
Proof.
  apply (source_files_exclude_git (fun _ root => [root ++ py "/app.py"])
           Sample.suffix Demo.repo (py "site.github.io") [PY_EXT]).
  - reflexivity.
  - intros f [<-|[]]. exists [], (py "/app.py"). reflexivity.
Defined.

(** ** The orchestrator *)

Lemma TestRunnerAgent_run_Some
    (subprocess_run : str -> str -> nat -> process_outcome)
    (tests_dir_exists : str -> bool)
    (list_source_files : str -> list str)
    (compile_error : str -> str -> option str)
    (read_error : str -> str) (repo_path : str) (fs : FS) :
  exists result,
    TestRunnerAgent_run subprocess_run tests_dir_exists list_source_files
      compile_error read_error repo_path fs
    = (Some result, fs).
Proof.
  unfold TestRunnerAgent_run, run_cmd.
  destruct (tests_dir_exists repo_path).
  - destruct (subprocess_run (py "pytest -q") repo_path 30);
      eexists; reflexivity.
  - unfold mbind, M_bind. rewrite compile_loop_eq. eexists; reflexivity.
Qed.

(** Analyser and planner on the files [fs], then the fixer with the writes
    the system may refuse on files [fs1] that hold the same sources. *)
Lemma fixer_checked_on_analysis
    (parse : str -> option ast)
    (get_source_segment : str -> position -> option str)
    (can_write : str -> bool)
    (repo_path : str) (files : list str) (fs fs1 : FS)
    (tests : test_result) :
  (forall f, In f files ->
     is_Some (fs !! f) /\ truthy f = true /\ can_write f = true
     /\ fs1 !! f = fs !! f) ->
  exists issues changes fs_fixed,
    StaticAnalyzerAgent_run parse get_source_segment files fs
    = (Some issues, fs)
    /\ BugFixerAgent_run_checked can_write repo_path
         (FixPlannerAgent_run issues tests) fs1
       = (Some changes, fs_fixed)
    /\ length changes
       = list_sum (List.map (fun entry => length (snd entry)) issues)
    /\ (forall f t,
          In f files -> fs !! f = Some t ->
          fs_fixed !! f
          = Some
              ((if contains EVAL t then fix_eval_text t else t)
               ++ List.concat
                    (List.repeat REFACTOR_COMMENT
                       (length
                          (List.filter (has_type COMPLEXITY)
                             (analyze_text parse get_source_segment t))))))
    /\ (forall g, ~ In g files -> fs_fixed !! g = fs1 !! g).
Proof.
  intros Hfiles.
  assert (Hread : forall f, In f files -> is_Some (fs !! f))
    by (intros f Hf; now apply Hfiles).
  pose (entry := fun f => analyze_text parse get_source_segment
                            (default [] (fs !! f))).
  pose (issues := fold_left (fun d f => dict_set f (entry f) d) files []).
  destruct (analysis_entries parse get_source_segment files fs Hread)
    as [Hnd Hent]. fold entry in Hnd, Hent. fold issues in Hnd, Hent.
  destruct (fixer_loop_entries issues [] fs1 Hnd) as (fs' & Hfix & Hfs').
  { intros f iss Hin. destruct (Hent f iss Hin) as [Hf _].
    destruct (Hfiles f Hf) as (Hs & Ht & _ & Hsame).
    split; [now rewrite Hsame|exact Ht]. }
  assert (Hplan : FixPlannerAgent_run issues tests
                  = flat_map
                      (fun entry0 : str * list issue =>
                         List.map
                           (fun i =>
                              PlanItem (Some (fst entry0)) (action_for i))
                           (snd entry0))
                      issues
                    ++ (if success_of tests then []
                        else [PlanItem None INVESTIGATE])).
  { unfold FixPlannerAgent_run. rewrite plan_loop_eq.
    - cbn [List.app]. destruct (success_of tests); cbn [negb];
        [now rewrite List.app_nil_r|reflexivity].
    - intros f iss i Hin Hi.
      destruct (Hent f iss Hin) as (_ & t & _ & ->).
      apply (analyze_text_types _ _ _ _ Hi). }
  exists issues. eexists. exists fs'.
  split; [unfold StaticAnalyzerAgent_run; now apply static_loop_eq|].
  split; [|split; [|split]].
  - unfold BugFixerAgent_run_checked. rewrite Hplan.
    rewrite fixer_loop_checked_eq.
    + rewrite fixer_loop_app, Hfix.
      destruct (success_of tests); reflexivity.
    + intros item f Hin Hact Hf. apply in_app_iff in Hin as [Hin|Hin].
      * apply in_flat_map in Hin as ([g iss] & Hg & Hitem).
        apply in_map_iff in Hitem as (i & <- & _). cbn [file fst] in Hf.
        assert (g = f) by congruence. subst g.
        destruct (Hent f iss Hg) as [Hfin _]. now apply Hfiles.
      * destruct (success_of tests); [destruct Hin|].
        destruct Hin as [<-|[]]. discriminate Hf.
  - cbn [List.app]. clear.
    induction issues as [|[f iss] l IH]; [reflexivity|].
    cbn [flat_map List.map list_sum fst snd].
    now rewrite List.length_app, List.length_map, IH.
  - intros f t Hin Ht. rewrite Hfs'.
    unfold issues. rewrite (dict_loop_get entry) by exact Hin.
    unfold entry. destruct (Hfiles f Hin) as (_ & _ & _ & ->).
    rewrite Ht. cbn [default fmap option_fmap option_map].
    now rewrite remediate_analyze_text.
  - intros g Hg. rewrite Hfs'. unfold issues.
    now rewrite dict_loop_get_other by exact Hg.
Qed.

Section Orchestration.

Variable parse : str -> option ast.
Variable get_source_segment : str -> position -> option str.
Variable subprocess_run : FS -> str -> str -> nat -> process_outcome * FS.
Variable tests_dir_exists : FS -> str -> bool.
Variable compile_error : str -> str -> option str.
Variable read_error : str -> str.
Variable can_write : str -> bool.
Variable rglob : FS -> str -> list str.
Variable suffix : str -> str.
Variable path_join : str -> str -> str.
Variable json_dumps : report -> str.

Lemma run_tests_returns (repo_path : str) (fs : FS) :
  exists result,
    run_tests subprocess_run tests_dir_exists compile_error read_error
      rglob suffix repo_path fs
    = (Some result,
       files_after_tests subprocess_run tests_dir_exists repo_path fs).
Proof.
  unfold run_tests.
  destruct (TestRunnerAgent_run_Some
              (fun cmd cwd timeout => fst (subprocess_run fs cmd cwd timeout))
              (tests_dir_exists fs)
              (fun r => source_files rglob suffix fs r [PY_EXT])
              compile_error read_error repo_path fs) as [result ->].
  now exists result.
Qed.

(** X16.  [Orchestrator.run] returns when every listed file can be read and
    written, the first test run leaves the listed files as they were, and
    the documentation and the report may be written.  The dependency map,
    the issue report and the first test result are those of the files as
    they were; the plan is the planner's for that report and that test
    result; the fixer changes the listed files as in X12 and no other file;
    then the documentation file is written, the tests run a second time on
    the files as they are by then, and the report file is written last. *)
Theorem orchestrator_returns (repo_path : str) (fs : FS) :
  (forall f, In f (source_files rglob suffix fs repo_path [PY_EXT]) ->
     is_Some (fs !! f) /\ truthy f = true /\ can_write f = true
     /\ files_after_tests subprocess_run tests_dir_exists repo_path fs !! f
        = fs !! f) ->
  can_write (path_join repo_path README) = true ->
  can_write (path_join repo_path REPORT) = true ->
  exists result before fs_fixed,
    run_files result = source_files rglob suffix fs repo_path [PY_EXT]
    /\ DependencyMapperAgent_run parse (run_files result) fs
       = (Some (run_deps result), fs)
    /\ StaticAnalyzerAgent_run parse get_source_segment (run_files result) fs
       = (Some (run_issues result), fs)
    /\ run_tests subprocess_run tests_dir_exists compile_error read_error
         rglob suffix repo_path fs
       = (Some before,
          files_after_tests subprocess_run tests_dir_exists repo_path fs)
    /\ run_plan result = FixPlannerAgent_run (run_issues result) before
    /\ BugFixerAgent_run_checked can_write repo_path (run_plan result)
         (files_after_tests subprocess_run tests_dir_exists repo_path fs)
       = (Some (run_changes result), fs_fixed)
    /\ (forall f t,
          In f (run_files result) -> fs !! f = Some t ->
          fs_fixed !! f
          = Some
              ((if contains EVAL t then fix_eval_text t else t)
               ++ List.concat
                    (List.repeat REFACTOR_COMMENT
                       (length
                          (List.filter (has_type COMPLEXITY)
                             (analyze_text parse get_source_segment t))))))
    /\ (forall g,
          ~ In g (run_files result) ->
          fs_fixed !! g
          = files_after_tests subprocess_run tests_dir_exists repo_path fs
              !! g)
    /\ run_tests subprocess_run tests_dir_exists compile_error read_error
         rglob suffix repo_path
         (<[path_join repo_path README
            := join [NEWLINE]
                 (doc_lines
                    (source_files rglob suffix fs_fixed repo_path [PY_EXT])
                    (run_deps result))]> fs_fixed)
       = (Some (run_tests_after result),
          files_after_tests subprocess_run tests_dir_exists repo_path
            (<[path_join repo_path README
               := join [NEWLINE]
                    (doc_lines
                       (source_files rglob suffix fs_fixed repo_path
                          [PY_EXT])
                       (run_deps result))]> fs_fixed))
    /\ run_report result = REPORT
    /\ Orchestrator_run parse get_source_segment subprocess_run
         tests_dir_exists compile_error read_error can_write rglob suffix
         path_join json_dumps repo_path fs
       = (Some result,
          <[path_join repo_path REPORT
            := json_dumps
                 (Report (run_plan result) (run_changes result) before
                    (run_tests_after result))]>
            (files_after_tests subprocess_run tests_dir_exists repo_path
               (<[path_join repo_path README
                  := join [NEWLINE]
                       (doc_lines
                          (source_files rglob suffix fs_fixed repo_path
                             [PY_EXT])
                          (run_deps result))]> fs_fixed))).
Proof.
  intros Hfiles Hreadme Hreport.
  set (files := source_files rglob suffix fs repo_path [PY_EXT]) in *.
  set (fs1 := files_after_tests subprocess_run tests_dir_exists repo_path fs)
    in *.
  destruct (run_tests_returns repo_path fs) as [before Hbefore].
  fold fs1 in Hbefore.
  destruct (fixer_checked_on_analysis parse get_source_segment can_write
              repo_path files fs fs1 before Hfiles)
    as (issues & changes & fs_fixed & Hiss & Hfix & _ & Htext & Hother).
  set (deps := fold_left
                 (fun d f => dict_set f (dependencies_of parse fs f) d)
                 files []).
  set (fs_doc := <[path_join repo_path README
                   := join [NEWLINE]
                        (doc_lines
                           (source_files rglob suffix fs_fixed repo_path
                              [PY_EXT])
                           deps)]> fs_fixed).
  destruct (run_tests_returns repo_path fs_doc) as [after Hafter].
  exists (RunResult files deps issues (FixPlannerAgent_run issues before)
            changes after REPORT),
    before, fs_fixed.
  cbn [run_files run_deps run_issues run_plan run_changes run_tests_after
       run_report].
  fold fs_doc.
  split; [reflexivity|]. split; [apply dependency_loop_eq|].
  split; [exact Hiss|]. split; [exact Hbefore|]. split; [reflexivity|].
  split; [exact Hfix|]. split; [exact Htext|]. split; [exact Hother|].
  split; [exact Hafter|]. split; [reflexivity|].
  unfold Orchestrator_run, RepoReaderAgent_run, list_source_files.
  unfold mbind at 1, M_bind at 1. fold files.
  unfold mbind at 1, M_bind at 1.
  unfold DependencyMapperAgent_run. rewrite dependency_loop_eq. fold deps.
  unfold mbind at 1, M_bind at 1. rewrite Hiss.
  unfold mbind at 1, M_bind at 1. rewrite Hbefore.
  unfold mbind at 1, M_bind at 1. rewrite Hfix.
  unfold mbind at 1, M_bind at 1.
  unfold DocWriterAgent_run, list_source_files, write_file_checked,
    write_file.
  unfold mbind at 1 2, M_bind at 1 2. cbn [mret M_ret].
  rewrite Hreadme. fold fs_doc.
  unfold mret at 1, M_ret at 1. cbn iota beta.
  unfold mbind at 1, M_bind at 1. rewrite Hafter.
  unfold mbind at 1, M_bind at 1.
  unfold ReporterAgent_run, write_file_checked, write_file.
  unfold mbind at 1, M_bind at 1. rewrite Hreport. reflexivity.
Qed.

(** X17.  When a listed file cannot be read, [Orchestrator.run] raises in
    the analyser: no file is changed, and neither the documentation nor the
    report is written. *)
Theorem orchestrator_aborts_unwritten
    (repo_path : str) (fs : FS) (f : str) :
  In f (source_files rglob suffix fs repo_path [PY_EXT]) ->
  fs !! f = None ->
  Orchestrator_run parse get_source_segment subprocess_run tests_dir_exists
    compile_error read_error can_write rglob suffix path_join json_dumps
    repo_path fs
  = (None, fs).
Proof.
  intros Hin Hnone.
  unfold Orchestrator_run, RepoReaderAgent_run, list_source_files.
  unfold mbind at 1, M_bind at 1.
  unfold mbind at 1, M_bind at 1.
  unfold DependencyMapperAgent_run. rewrite dependency_loop_eq.
  unfold mbind at 1, M_bind at 1.
  unfold StaticAnalyzerAgent_run.
  now rewrite (static_loop_raises parse get_source_segment fs _ [] f).
Qed.

End Orchestration.

Lemma orchestrator_returns_witness :
  exists result fs',
    Orchestrator_run Sample.parse Demo.get_source_segment
      Sample.subprocess_run Sample.tests_dir_exists Demo.compile_error
      Demo.read_error Sample.can_write Sample.rglob Sample.suffix
      Sample.path_join Sample.json_dumps (py "demo_repo") Sample.repo
    = (Some result, fs')
    /\ run_files result = Demo.files ++ [Sample.test_file]
    /\ run_report result = REPORT.
Proof.
  destruct (orchestrator_returns Sample.parse Demo.get_source_segment
              Sample.subprocess_run Sample.tests_dir_exists
              Demo.compile_error Demo.read_error Sample.can_write
              Sample.rglob Sample.suffix Sample.path_join Sample.json_dumps
              (py "demo_repo") Sample.repo)
    as (result & before & fs_fixed & Hfiles & _ & _ & _ & _ & _ & _ & _ & _
        & Hreport & Hrun).
  - intros f Hf. vm_compute in Hf.
    destruct Hf as [<-|[<-|[<-|[<-|[<-|[]]]]]];
      (split; [eexists; vm_compute; reflexivity|]);
      (split; [reflexivity|]); split; vm_compute; reflexivity.
  - vm_compute. reflexivity.
  - vm_compute. reflexivity.
  - exists result. eexists. split; [exact Hrun|].
    split; [rewrite Hfiles; vm_compute; reflexivity|exact Hreport].
Defined.

Lemma orchestrator_aborts_unwritten_witness :
  Orchestrator_run Demo.parse Demo.get_source_segment Sample.subprocess_run
    Sample.tests_dir_exists Demo.compile_error Demo.read_error
    Sample.can_write
    (fun _ _ => [Demo.path_a; py "demo_repo/missing.py"])
    Sample.suffix Sample.path_join Sample.json_dumps (py "demo_repo")
    Demo.repo
  = (None, Demo.repo).
Proof.
  apply (orchestrator_aborts_unwritten Demo.parse Demo.get_source_segment
           Sample.subprocess_run Sample.tests_dir_exists Demo.compile_error
           Demo.read_error Sample.can_write
           (fun _ _ => [Demo.path_a; py "demo_repo/missing.py"])
           Sample.suffix Sample.path_join Sample.json_dumps (py "demo_repo")
           Demo.repo (py "demo_repo/missing.py")).
  - vm_compute. auto.
  - reflexivity.
Defined.

(** ** The documentation file *)

Lemma append_items_map (xs : list str) :
  forall out,
    append_items xs out = out ++ List.map (fun x => py "- " ++ x) xs.
Proof.
  induction xs as [|x xs IH]; intros out; cbn [append_items List.map].
  - now rewrite List.app_nil_r.
  - now rewrite IH, <- List.app_assoc.
Qed.

(** X18.  The documentation writer writes one file, the documentation file
    under the root, over whatever it held, and returns; where the operating
    system refuses that write (the root is missing, say) it raises and
    leaves the files as they are.  The lines written are the title, an empty
    line, the heading of the files, one line for each listed source file in
    the order of the listing, the heading of the dependencies, and one line
    for each module of some entry of the dependency map: the modules in
    strictly increasing order, so each once however many files import
    it. *)
Theorem doc_writer_lists_each_module_once
    (can_write : str -> bool)
    (rglob : FS -> str -> list str) (suffix : str -> str)
    (path_join : str -> str -> str)
    (repo_path : str) (deps : list (str * list str)) (fs : FS) :
  exists modules,
    DocWriterAgent_run can_write rglob suffix path_join repo_path deps fs
    = (if can_write (path_join repo_path README)
       then
         (Some README,
          <[path_join repo_path README
            := join [NEWLINE]
                 ([py "# Auto-generated Documentation"; []; py "## Files"]
                  ++ List.map (fun f => py "- " ++ f)
                       (source_files rglob suffix fs repo_path [PY_EXT])
                  ++ [NEWLINE :: py "## Dependencies"]
                  ++ List.map (fun d => py "- " ++ d) modules)]> fs)
       else (None, fs))
    /\ StronglySorted (fun a b => str_ltb a b = true) modules
    /\ (forall d,
          In d modules <-> exists f arr, In (f, arr) deps /\ In d arr).
Proof.
  exists (sorted_set (flat_map snd deps)).
  destruct (sorted_set_spec (flat_map snd deps)) as [Hmem Hsorted].
  split; [|split; [exact Hsorted|]].
  - unfold DocWriterAgent_run, list_source_files, write_file_checked,
      write_file, doc_lines.
    unfold mbind, M_bind. cbn [mret M_ret].
    destruct (can_write (path_join repo_path README)); [|reflexivity].
    rewrite !append_items_map, <- !List.app_assoc. reflexivity.
  - intros d. rewrite Hmem, in_flat_map. split.
    + intros ([f arr] & Hin & Hd). now exists f, arr.
    + intros (f & arr & Hin & Hd). now exists (f, arr).
Qed.
